(** * Medicagent chat client: a shallow embedding

    The development follows the TypeScript sources of the front-end:

    - [JsString]     the JavaScript string operations the client relies on
                     ([trim], [startsWith], [includes], truthiness);
    - [ChatTypes]    [frontend/src/types/chat.ts];
    - [Http], [Async] requests, responses and the promise-style tasks the
                     handlers are written in;
    - [Api]          [frontend/src/lib/api.ts] (its text follows the
                     component in [components/chat/Message.tsx]);
    - [MessageView]  the validation controls of
                     [frontend/src/components/chat/Message.tsx];
    - [Chat]         the [Chat] component
                     ([frontend/src/components/chat/Chat.tsx], whose text
                     follows the README in [README.md]) as an event driven
                     transition system;
    - [Orchestrator] the server-side validation gate, which is not part of
                     the front-end sources and is modelled from the
                     specification. *)

From Stdlib Require Import String Ascii NArith QArith Bool List Lia DecimalString.
From stdpp Require Import base option list gmap strings.
Import ListNotations.

Local Open Scope N_scope.

(* ===================================================================== *)
(** ** JavaScript strings *)
(* ===================================================================== *)

Module JsString.

(** A JavaScript string is a sequence of UTF-16 code units. *)
Definition jsstring : Type := list N.

(** Code points of a UTF-8 byte sequence (a source literal). *)
Fixpoint utf8_decode (bytes : list N) : list N :=
  match bytes with
  | [] => []
  | b0 :: rest =>
      if b0 <? 128 then b0 :: utf8_decode rest
      else if b0 <? 224 then
        match rest with
        | b1 :: rest' =>
            (N.lor (N.shiftl (N.land b0 31) 6) (N.land b1 63)) :: utf8_decode rest'
        | [] => [65533]
        end
      else if b0 <? 240 then
        match rest with
        | b1 :: b2 :: rest' =>
            (N.lor (N.shiftl (N.land b0 15) 12)
               (N.lor (N.shiftl (N.land b1 63) 6) (N.land b2 63)))
              :: utf8_decode rest'
        | _ => [65533]
        end
      else
        match rest with
        | b1 :: b2 :: b3 :: rest' =>
            (N.lor (N.shiftl (N.land b0 7) 18)
               (N.lor (N.shiftl (N.land b1 63) 12)
                  (N.lor (N.shiftl (N.land b2 63) 6) (N.land b3 63))))
              :: utf8_decode rest'
        | _ => [65533]
        end
  end.

(** UTF-16 code units of a code point (a surrogate pair above the BMP). *)
Definition utf16_units (cp : N) : list N :=
  if cp <? 65536 then [cp]
  else
    let v := cp - 65536 in
    [55296 + N.shiftr v 10; 56320 + N.land v 1023].

(** The JavaScript string denoted by a source literal. *)
Definition js (s : string) : jsstring :=
  concat (map utf16_units
            (utf8_decode (map N_of_ascii (list_ascii_of_string s)))).

(** ECMAScript [WhiteSpace] and [LineTerminator] code units, the ones
    [String.prototype.trim] strips. *)
Definition isWhiteSpace (c : N) : bool :=
  (c =? 9) || (c =? 10) || (c =? 11) || (c =? 12) || (c =? 13) || (c =? 32)
  || (c =? 160) || (c =? 5760) || ((8192 <=? c) && (c <=? 8202))
  || (c =? 8232) || (c =? 8233) || (c =? 8239) || (c =? 8287)
  || (c =? 12288) || (c =? 65279).

Fixpoint trimStart (s : jsstring) : jsstring :=
  match s with
  | [] => []
  | c :: rest => if isWhiteSpace c then trimStart rest else s
  end.

Definition trimEnd (s : jsstring) : jsstring := rev (trimStart (rev s)).

(** [s.trim()] *)
Definition trim (s : jsstring) : jsstring := trimEnd (trimStart s).

(** [s.startsWith(p)] *)
Fixpoint startsWith (s p : jsstring) {struct p} : bool :=
  match p, s with
  | [], _ => true
  | _ :: _, [] => false
  | a :: p', b :: s' => (a =? b) && startsWith s' p'
  end.

(** [s.includes(p)] *)
Fixpoint includes (s p : jsstring) : bool :=
  startsWith s p ||
  match s with
  | [] => false
  | _ :: s' => includes s' p
  end.

(** Truthiness of a string: only the empty string is falsy. *)
Definition truthy (s : jsstring) : bool :=
  match s with [] => false | _ :: _ => true end.

(** Truthiness of a [string | null] or [string | undefined] value. *)
Definition truthy_opt (s : option jsstring) : bool :=
  match s with None => false | Some s => truthy s end.

End JsString.
Import JsString.

(* ===================================================================== *)
(** ** [types/chat.ts] *)
(* ===================================================================== *)

Module ChatTypes.

Inductive Role : Type := user | assistant | system.

(** [interface Message]: optional properties are [option]s, [None] being
    [undefined]. *)
Module Message.
Record t : Type := mk {
  role : Role;
  content : jsstring;
  image : option jsstring;
  agent : option jsstring;
  resultImage : option jsstring
}.
End Message.

(** [interface ChatResponse] *)
Module ChatResponse.
Record t : Type := mk {
  status : jsstring;
  response : jsstring;
  agent : jsstring;
  result_image : option jsstring
}.

(** [data.result_image = v], the other properties untouched. *)
Definition set_result_image (data : t) (v : jsstring) : t :=
  {| status := status data; response := response data; agent := agent data;
     result_image := Some v |}.
End ChatResponse.

(** [interface ValidationResponse] *)
Module ValidationResponse.
Record t : Type := mk {
  status : jsstring;
  message : jsstring;
  response : jsstring
}.
End ValidationResponse.

(** [interface SpeechRequest] *)
Module SpeechRequest.
Record t : Type := mk {
  text : jsstring;
  voice_id : option jsstring;
  language : option jsstring
}.
End SpeechRequest.

End ChatTypes.
Import ChatTypes.

(* ===================================================================== *)
(** ** Requests and responses of [fetch] *)
(* ===================================================================== *)

Module Http.

Inductive Method : Type := GET | POST.

(** [credentials: 'include'] is the only value the client ever sets. *)
Inductive Credentials : Type := Include.

Record Blob : Type := { blob_bytes : list N; blob_type : jsstring }.

(** [new File(bits, name)] *)
Record File : Type := { file_bits : list Blob; file_name : jsstring }.

(** One [FormData.append(name, value)]. *)
Inductive FormValue : Type :=
| FormString (s : jsstring)
| FormFile (f : File)
| FormBlob (b : Blob).

(** A [FormData] object: the appended entries, in order. *)
Definition FormData : Type := list (jsstring * FormValue).

(** The JSON values the client serialises with [JSON.stringify]; an object
    is the list of its properties in insertion order. *)
#[warnings="-register-all"]
Inductive Json : Type :=
| JString (s : jsstring)
| JArray (items : list Json)
| JObject (properties : list (jsstring * Json)).

Inductive Body : Type :=
| JsonBody (j : Json)
| FormBody (f : FormData).

(** The arguments of one [fetch(url, init)] call. *)
Record Request : Type := {
  url : jsstring;
  method : Method;
  headers : list (jsstring * jsstring);
  body : option Body;
  credentials : option Credentials
}.

(** [{ transcript: string }] *)
Record Transcript : Type := { transcript : jsstring }.

(** What the body of a response is read as.  The client trusts the declared
    TypeScript types, so the embedding is typed by the kind of the call. *)
Inductive Kind : Type := KChat | KValidation | KTranscript | KBlob.

Definition payload (k : Kind) : Type :=
  match k with
  | KChat => ChatResponse.t
  | KValidation => ValidationResponse.t
  | KTranscript => Transcript
  | KBlob => Blob
  end.

Definition Kind_eq_dec (a b : Kind) : {a = b} + {a <> b}.
Proof. decide equality. Defined.

(** A [Response]: [ok], [status], the body as text ([response.text()]) and
    the body as read by [response.json()] or [response.blob()]; [None] when
    that read rejects. *)
Record Response (T : Type) : Type := {
  ok : bool;
  status : N;
  text : jsstring;
  parsed : option T
}.
Arguments ok {T} _.
Arguments status {T} _.
Arguments text {T} _.
Arguments parsed {T} _.

(** Exceptions and promise rejections. *)
Inductive JsError : Type :=
| Error (message : jsstring)     (* [new Error(message)] *)
| FetchFailed                    (* [fetch] rejects: no response at all *)
| BodyUnreadable.                (* [response.json()] or [.blob()] rejects *)

(** How the promise returned by [fetch] settles. *)
Inductive Outcome (T : Type) : Type :=
| Rejected (e : JsError)
| Responded (r : Response T).
Arguments Rejected {T} _.
Arguments Responded {T} _.

(** The value a call obtains when it checks [response.ok] and then reads
    the body: there is one only if [fetch] resolved, the status was a
    success and the body could be read. *)
Definition delivered {T} (o : Outcome T) : option T :=
  match o with
  | Rejected _ => None
  | Responded r => if ok r then parsed r else None
  end.

(** A successful response carrying [v]. *)
Definition success {T} (v : T) : Outcome T :=
  Responded {| ok := true; status := 200; text := []; parsed := Some v |}.

(** A response with an error status. *)
Definition failure {T} (code : N) : Outcome T :=
  Responded {| ok := false; status := code; text := []; parsed := None |}.

End Http.
Import Http.

(* ===================================================================== *)
(** ** Asynchronous tasks *)
(* ===================================================================== *)

Module Async.

(** The body of an [async] function over component state [S]: it returns,
    throws, updates state ([setX(...)]) or awaits a [fetch]. *)
Inductive Task (S A : Type) : Type :=
| Ret (a : A)
| Throw (e : JsError)
| SetState (f : S -> S) (k : Task S A)
| Await (kd : Kind) (req : Request) (k : Outcome (payload kd) -> Task S A).
Arguments Ret {S A} _.
Arguments Throw {S A} _.
Arguments SetState {S A} _ _.
Arguments Await {S A} _ _ _.

Fixpoint bind {S A B} (t : Task S A) (f : A -> Task S B) : Task S B :=
  match t with
  | Ret a => f a
  | Throw e => Throw e
  | SetState g k => SetState g (bind k f)
  | Await kd req k => Await kd req (fun o => bind (k o) f)
  end.

#[export] Instance task_ret {S} : MRet (Task S) := fun _ a => Ret a.
#[export] Instance task_bind {S} : MBind (Task S) := fun _ _ f t => bind t f.

(** [try { t } catch (error) { h error }] *)
Fixpoint try_catch {S A} (t : Task S A) (h : JsError -> Task S A) : Task S A :=
  match t with
  | Ret a => Ret a
  | Throw e => h e
  | SetState g k => SetState g (try_catch k h)
  | Await kd req k => Await kd req (fun o => try_catch (k o) h)
  end.

(** [try { t } finally { fin }] *)
Fixpoint try_finally {S A} (t : Task S A) (fin : Task S unit) : Task S A :=
  match t with
  | Ret a => bind fin (fun _ => Ret a)
  | Throw e => bind fin (fun _ => Throw e)
  | SetState g k => SetState g (try_finally k fin)
  | Await kd req k => Await kd req (fun o => try_finally (k o) fin)
  end.

(** A state setter call. *)
Definition set {S} (f : S -> S) : Task S unit := SetState f (Ret tt).

(** [await fetch(url, init)] *)
Definition fetch {S} (kd : Kind) (req : Request) : Task S (Response (payload kd)) :=
  Await kd req (fun o =>
    match o with
    | Rejected e => Throw e
    | Responded r => Ret r
    end).

(** [await response.json()] and [await response.blob()] *)
Definition read {S T} (response : Response T) : Task S T :=
  match parsed response with
  | Some v => Ret v
  | None => Throw BodyUnreadable
  end.

End Async.
Import Async.

(* ===================================================================== *)
(** ** [lib/api.ts] *)
(* ===================================================================== *)

Module Api.

(** [String(n)] for a status code. *)
Definition numberToString (n : N) : jsstring :=
  js (NilZero.string_of_uint (N.to_uint n)).

(** [JSON.stringify(request)] for a [SpeechRequest]: properties whose value
    is [undefined] are left out. *)
Definition stringifySpeechRequest (request : SpeechRequest.t) : Json :=
  JObject
    ([(js "text", JString (SpeechRequest.text request))]
       ++ match SpeechRequest.voice_id request with
          | Some v => [(js "voice_id", JString v)]
          | None => []
          end
       ++ match SpeechRequest.language request with
          | Some l => [(js "language", JString l)]
          | None => []
          end).

Section WithEnvironment.

(** [process.env.NEXT_PUBLIC_API_URL]; [None] when the variable is unset. *)
Variable NEXT_PUBLIC_API_URL : option jsstring.

(** The state type of the calling component; the API never touches it. *)
Context {S : Type}.

(** [process.env.NEXT_PUBLIC_API_URL || 'http://localhost:8000'] *)
Definition API_BASE_URL : jsstring :=
  match NEXT_PUBLIC_API_URL with
  | Some u => if truthy u then u else js "http://localhost:8000"
  | None => js "http://localhost:8000"
  end.

Definition chatRequest (message : jsstring) : Request :=
  {| url := API_BASE_URL ++ js "/api/chat";
     method := POST;
     headers := [(js "Content-Type", js "application/json")];
     body := Some (JsonBody (JObject
                [(js "query", JString message);
                 (js "conversation_history", JArray [])]));
     credentials := Some Include |}.

Definition sendChatMessage (message : jsstring) : Task S ChatResponse.t :=
  response ← fetch KChat (chatRequest message);
  if negb (ok response) then Throw (Error (js "Failed to send message"))
  else read response.

Definition uploadRequest (image : File) (text : jsstring) : Request :=
  {| url := API_BASE_URL ++ js "/api/upload";
     method := POST;
     headers := [];
     body := Some (FormBody [(js "image", FormFile image);
                             (js "text", FormString text)]);
     credentials := Some Include |}.

(** The fix-up of [result_image] after the body was read. *)
Definition fullResultImage (data : ChatResponse.t) : ChatResponse.t :=
  match ChatResponse.result_image data with
  | Some result_image =>
      if truthy result_image && negb (startsWith result_image (js "http"))
      then ChatResponse.set_result_image data (API_BASE_URL ++ result_image)
      else data
  | None => data
  end.

(** [text] defaults to the empty string when the argument is left out. *)
Definition uploadImage (image : File) (text : option jsstring)
  : Task S ChatResponse.t :=
  let text := default (js "") text in
  response ← fetch KChat (uploadRequest image text);
  if negb (ok response) then Throw (Error (js "Failed to upload image"))
  else
    data ← read response;
    mret (fullResultImage data).

Definition validationRequest (validation comments : jsstring) : Request :=
  {| url := API_BASE_URL ++ js "/api/validate";
     method := POST;
     headers := [];
     body := Some (FormBody [(js "validation_result", FormString validation);
                             (js "comments", FormString comments)]);
     credentials := Some Include |}.

Definition sendValidation (validation comments : jsstring)
  : Task S ValidationResponse.t :=
  response ← fetch KValidation (validationRequest validation comments);
  if negb (ok response) then Throw (Error (js "Failed to send validation"))
  else read response.

Definition transcribeRequest (audio : Blob) (language : jsstring) : Request :=
  {| url := API_BASE_URL ++ js "/api/transcribe";
     method := POST;
     headers := [];
     body := Some (FormBody [(js "audio", FormBlob audio);
                             (js "language", FormString language)]);
     credentials := None |}.

(** [language] defaults to ["vi-VN"]; the [catch] block logs and rethrows. *)
Definition transcribeAudio (audio : Blob) (language : option jsstring)
  : Task S Transcript :=
  let language := default (js "vi-VN") language in
  try_catch
    (response ← fetch KTranscript (transcribeRequest audio language);
     if negb (ok response) then
       let errorText := text response in
       Throw (Error (js "Failed to transcribe audio: "
                       ++ numberToString (status response)
                       ++ js " " ++ errorText))
     else
       data ← read response;
       mret data)
    (fun error => Throw error).

Definition speechRequest (request : SpeechRequest.t) : Request :=
  {| url := API_BASE_URL ++ js "/api/generate-speech";
     method := POST;
     headers := [(js "Content-Type", js "application/json")];
     body := Some (JsonBody (stringifySpeechRequest request));
     credentials := None |}.

Definition generateSpeech (request : SpeechRequest.t) : Task S Blob :=
  response ← fetch KBlob (speechRequest request);
  if negb (ok response) then Throw (Error (js "Failed to generate speech"))
  else read response.

End WithEnvironment.

End Api.

(* ===================================================================== *)
(** ** [components/chat/Message.tsx]: the validation controls *)
(* ===================================================================== *)

Module MessageView.

(** The two buttons under "Do you agree with this result?". *)
Inductive Button : Type := YesButton | NoButton.

(** The [onValidation] property: a callback, or [undefined]. *)
Definition OnValidation (S : Type) : Type :=
  option (jsstring -> jsstring -> Task S unit).

(** [message.agent?.includes('HUMAN_VALIDATION')] *)
Definition asksValidation (message : Message.t) : bool :=
  match Message.agent message with
  | Some agent => includes agent (js "HUMAN_VALIDATION")
  | None => false
  end.

(** The controls are rendered when
    [message.agent?.includes('HUMAN_VALIDATION') && onValidation]. *)
Definition rendersControls {S} (message : Message.t)
    (onValidation : OnValidation S) : bool :=
  asksValidation message && bool_decide (is_Some onValidation).

(** [handleValidation]; [validationComments] is the text area's state. *)
Definition handleValidation {S} (onValidation : OnValidation S)
    (validationComments : jsstring) (validation : jsstring) : Task S unit :=
  match onValidation with
  | Some callback => callback validation validationComments
  | None => mret tt
  end.

(** The literal each button passes to [handleValidation]. *)
Definition buttonValue (b : Button) : jsstring :=
  match b with
  | YesButton => js "yes"
  | NoButton => js "no"
  end.

(** [onClick={() => handleValidation('yes')}] and its sibling. *)
Definition onClick {S} (onValidation : OnValidation S)
    (validationComments : jsstring) (b : Button) : Task S unit :=
  handleValidation onValidation validationComments (buttonValue b).

End MessageView.

(* ===================================================================== *)
(** ** [components/chat/Chat.tsx] *)
(* ===================================================================== *)

Module Chat.

(** The [useState] cells of the component. *)
Record State : Type := {
  messages : list Message.t;
  input : jsstring;
  isRecording : bool;
  isProcessing : bool;
  selectedImage : option jsstring
}.

Definition setMessages (f : list Message.t -> list Message.t) : Task State unit :=
  set (fun st =>
    {| messages := f (messages st); input := input st;
       isRecording := isRecording st; isProcessing := isProcessing st;
       selectedImage := selectedImage st |}).

Definition setInput (v : jsstring) : Task State unit :=
  set (fun st =>
    {| messages := messages st; input := v;
       isRecording := isRecording st; isProcessing := isProcessing st;
       selectedImage := selectedImage st |}).

Definition setIsRecording (v : bool) : Task State unit :=
  set (fun st =>
    {| messages := messages st; input := input st;
       isRecording := v; isProcessing := isProcessing st;
       selectedImage := selectedImage st |}).

Definition setIsProcessing (v : bool) : Task State unit :=
  set (fun st =>
    {| messages := messages st; input := input st;
       isRecording := isRecording st; isProcessing := v;
       selectedImage := selectedImage st |}).

Definition setSelectedImage (v : option jsstring) : Task State unit :=
  set (fun st =>
    {| messages := messages st; input := input st;
       isRecording := isRecording st; isProcessing := isProcessing st;
       selectedImage := v |}).

Definition greeting : Message.t :=
  Message.mk assistant
    (js "Chào bạn, tôi là hệ thống Medicagent. Tôi có chuyên môn trong 3 lĩnh vực chính: Khối u não, X-quang ngực, và phân vùng tổn thương da. Tuy nhiên, tôi chỉ đóng vai trò hỗ trợ và không thể thay thế được các chuyên gia y tế. Nếu có câu hỏi hoặc cần chẩn đoán, hãy gửi thông tin nhé, tôi sẽ giúp bạn tìm kiếm thông tin chính xác nhất!")
    None None None.

(** The initial values passed to [useState]. *)
Definition initial : State :=
  {| messages := [greeting]; input := js ""; isRecording := false;
     isProcessing := false; selectedImage := None |}.

Definition requestFailed : Message.t :=
  Message.mk system
    (js "Sorry, there was an error processing your request. Please try again.")
    None None None.

Definition validationFailed : Message.t :=
  Message.mk system
    (js "Sorry, there was an error processing your validation. Please try again.")
    None None None.

Definition cleared : Message.t :=
  Message.mk system (js "Xin chào, hãy tiếp tục với Medicagent nhé!")
    None None None.

(** The assistant entry built from a [ChatResponse]. *)
Definition reply (response : ChatResponse.t) : Message.t :=
  Message.mk assistant (ChatResponse.response response) None
    (Some (ChatResponse.agent response))
    (ChatResponse.result_image response).

(** The entry built from a [ValidationResponse]. *)
Definition validated (response : ValidationResponse.t) : Message.t :=
  Message.mk assistant (ValidationResponse.response response) None
    (Some (js "HUMAN_VALIDATED")) None.

(** [fetch(selectedImage)]: a GET of the data URL. *)
Definition dataUrlRequest (dataUrl : jsstring) : Request :=
  {| url := dataUrl; method := GET; headers := []; body := None;
     credentials := None |}.

Section WithEnvironment.

Variable NEXT_PUBLIC_API_URL : option jsstring.

(** The guard on the first line of [handleSendMessage]. *)
Definition sendBlocked (st : State) : bool :=
  (negb (truthy (trim (input st))) && negb (truthy_opt (selectedImage st)))
  || isProcessing st.

(** [handleSendMessage]; [st] is the state the handler's closure captured,
    the updater functions of [setMessages] see the state of their time. *)
Definition handleSendMessage (st : State) : Task State unit :=
  if sendBlocked st then mret tt
  else
    let newMessage :=
      Message.mk user (trim (input st))
        (if truthy_opt (selectedImage st) then selectedImage st else None)
        None None in
    setMessages (fun prev => prev ++ [newMessage]);;
    setInput (js "");;
    setSelectedImage None;;
    setIsProcessing true;;
    try_finally
      (try_catch
         (response ←
            match selectedImage st with
            | Some dataUrl =>
                if truthy dataUrl then
                  imageFile ← (r ← fetch KBlob (dataUrlRequest dataUrl); read r);
                  Api.uploadImage NEXT_PUBLIC_API_URL
                    {| file_bits := [imageFile]; file_name := js "image.jpg" |}
                    (Some (trim (input st)))
                else Api.sendChatMessage NEXT_PUBLIC_API_URL (trim (input st))
            | None => Api.sendChatMessage NEXT_PUBLIC_API_URL (trim (input st))
            end;
          setMessages (fun prev => prev ++ [reply response]))
         (fun error => setMessages (fun prev => prev ++ [requestFailed])))
      (setIsProcessing false).

(** [handleImageUpload]: [file] is [event.target.files?.[0]], [dataUrl] what
    the [FileReader] hands to [onload]. *)
Definition handleImageUpload (file : option File) (dataUrl : jsstring)
  : Task State unit :=
  match file with
  | Some _ => setSelectedImage (Some dataUrl)
  | None => mret tt
  end.

(** [handleValidation] *)
Definition handleValidation (validation comments : jsstring) : Task State unit :=
  setIsProcessing true;;
  try_finally
    (try_catch
       (response ← Api.sendValidation NEXT_PUBLIC_API_URL validation comments;
        setMessages (fun prev => prev ++ [validated response]))
       (fun error => setMessages (fun prev => prev ++ [validationFailed])))
    (setIsProcessing false).

(** [new Blob(audioChunks, { type: 'audio/webm' })] *)
Definition recording (audioChunks : list Blob) : Blob :=
  {| blob_bytes := concat (map blob_bytes audioChunks);
     blob_type := js "audio/webm" |}.

(** [mediaRecorder.onstop] *)
Definition onstop (audioChunks : list Blob) : Task State unit :=
  try_catch
    (result ← Api.transcribeAudio NEXT_PUBLIC_API_URL (recording audioChunks) None;
     setInput (transcript result))
    (fun error => mret tt).

(** [toggleRecording]: [granted] tells whether [getUserMedia] resolved,
    [audioChunks] is what the recorder collected when it is stopped.  The
    recorder's [stop()] makes [onstop] run. *)
Definition toggleRecording (st : State) (granted : bool)
    (audioChunks : list Blob) : Task State unit :=
  if isRecording st then
    setIsRecording false;;
    onstop audioChunks
  else if granted then setIsRecording true
  else mret tt.

(** [clearChat] *)
Definition clearChat : Task State unit :=
  setMessages (fun _ => [cleared]).

(** The [onValidation] property the component passes to a [Message]. *)
Definition onValidationFor (message : Message.t)
  : MessageView.OnValidation State :=
  if MessageView.asksValidation message then Some handleValidation else None.

(** *** The component as a transition system *)

(** A handler suspended at an [await]. *)
Record Suspended : Type := {
  awaiting : Kind;
  request : Request;
  resume : Outcome (payload awaiting) -> Task State unit
}.

(** The component between two events: its state, the handlers waiting for
    a response (oldest first) and every request issued so far. *)
Record World : Type := {
  ui : State;
  inflight : list Suspended;
  sent : list Request
}.

Definition start : World := {| ui := initial; inflight := []; sent := [] |}.

(** Run a task up to its first [await] (or to its end). *)
Fixpoint run (t : Task State unit) (w : World) : World :=
  match t with
  | Ret _ => w
  | Throw _ => w
  | SetState f k =>
      run k {| ui := f (ui w); inflight := inflight w; sent := sent w |}
  | Await kd req k =>
      {| ui := ui w;
         inflight := inflight w ++ [{| awaiting := kd; request := req; resume := k |}];
         sent := sent w ++ [req] |}
  end.

(** What the user and the network can do. *)
Inductive Event : Type :=
| SendMessage                       (* Send button, or Enter in the text area *)
| ChangeInput (value : jsstring)    (* typing *)
| ImageUpload (file : option File) (dataUrl : jsstring)
| RemoveImage                       (* the cross on the preview *)
| Validation (index : nat) (b : MessageView.Button) (validationComments : jsstring)
| ToggleRecording (granted : bool) (audioChunks : list Blob)
| ClearChat
| Settle (n : nat) (kd : Kind) (o : Outcome (payload kd)).
                                    (* the n-th pending [fetch] settles *)

(** Resume a suspended handler with the outcome of its [fetch]. *)
Definition settle (s : Suspended) (kd : Kind) (o : Outcome (payload kd))
  : option (Task State unit) :=
  match Kind_eq_dec kd (awaiting s) with
  | left e => Some (resume s (eq_rect kd (fun k => Outcome (payload k)) o _ e))
  | right _ => None
  end.

Definition step (w : World) (e : Event) : World :=
  match e with
  | SendMessage => run (handleSendMessage (ui w)) w
  | ChangeInput value => run (setInput value) w
  | ImageUpload file dataUrl => run (handleImageUpload file dataUrl) w
  | RemoveImage => run (setSelectedImage None) w
  | Validation index b validationComments =>
      match messages (ui w) !! index with
      | Some message =>
          if MessageView.rendersControls message (onValidationFor message)
          then run (MessageView.onClick (onValidationFor message)
                      validationComments b) w
          else w
      | None => w
      end
  | ToggleRecording granted audioChunks =>
      run (toggleRecording (ui w) granted audioChunks) w
  | ClearChat => run clearChat w
  | Settle n kd o =>
      match inflight w !! n with
      | Some s =>
          match settle s kd o with
          | Some t =>
              run t {| ui := ui w; inflight := delete n (inflight w);
                       sent := sent w |}
          | None => w
          end
      | None => w
      end
  end.

Definition steps (w : World) (es : list Event) : World :=
  foldl step w es.

End WithEnvironment.

End Chat.

(* ===================================================================== *)
(** ** The orchestrator and its validation gate *)
(* ===================================================================== *)

(** Modelled from the spec: the server behind [/chat], [/upload] and
    [/validate] (router, agents, validation gate, session store and
    orchestrator) is not among the front-end sources.  The definitions
    below follow sections 3, 4.1, 4.2 and 4.5 to 4.7 of the specification;
    the inference back-end, the intent tests, the non-vision agents and
    the wording of replies are the specification's external collaborators
    and stay parameters. *)
Module Orchestrator.

Definition Text : Type := jsstring.
Definition Image : Type := list N.
Definition Timestamp : Type := N.

(** The closed set of agents (section 9). *)
Inductive AgentId : Type :=
| Conversation | Retrieval | Search | BrainTumor | ChestXray | SkinLesion.

Inductive Modality : Type := BrainMRI | ChestXrayImage | SkinLesionImage.

Definition visionAgent (m : Modality) : AgentId :=
  match m with
  | BrainMRI => BrainTumor
  | ChestXrayImage => ChestXray
  | SkinLesionImage => SkinLesion
  end.

Definition modalityOf (a : AgentId) : option Modality :=
  match a with
  | BrainTumor => Some BrainMRI
  | ChestXray => Some ChestXrayImage
  | SkinLesion => Some SkinLesionImage
  | Conversation | Retrieval | Search => None
  end.

Inductive Status : Type := StatusOk | StatusError.

(** A score of the inference back-end: a number, or NaN. *)
Inductive Score : Type := NaN | Finite (q : Q).

(** [AgentResult] (section 3). *)
Record AgentResult : Type := {
  status : Status;
  response : Text;
  agent : AgentId;
  result_image : option Image;
  requiresValidation : option bool;
  structured : option (Text * Q)          (* label and confidence *)
}.

Inductive Role : Type := RoleUser | RoleAssistant | RoleSystem.

(** The agent tag of a turn; a validated result is tagged [HUMAN_VALIDATED]. *)
Inductive Tag : Type := ProducedBy (a : AgentId) | HUMAN_VALIDATED.

(** [Turn] (section 3). *)
Record Turn : Type := {
  role : Role;
  content : Text;
  image : option Image;
  resultImage : option Image;
  tag : option Tag
}.

(** The text and image of an incoming turn. *)
Record TurnInput : Type := { text : Text; upload : option Image }.

(** [PendingValidation] (section 3). *)
Record PendingValidation : Type := {
  held : AgentResult;
  producer : AgentId;
  created : Timestamp
}.

(** [Session] (section 3); the identifier is the key of the store. *)
Record Session : Type := {
  history : list Turn;
  pending : option PendingValidation
}.

(** Every new session starts in [NONE]. *)
Definition newSession : Session := {| history := []; pending := None |}.

Inductive Gate : Type := NONE | PENDING.

Definition gate (s : Session) : Gate :=
  match pending s with
  | Some _ => PENDING
  | None => NONE
  end.

(** [Classification] (section 3): the selected agent and, for an image
    turn, the detected modality. *)
Record Classification : Type := {
  selected : AgentId;
  modality : option Modality
}.

Inductive OrchestratorError : Type :=
| ValidationPendingError
| NoPendingValidationError
| MalformedInputError.

Inductive Finality : Type := FINAL | PENDING_VALIDATION.

(** The response envelope (section 4.7). *)
Record ResponseEnvelope : Type := {
  reply : Text;
  by_agent : option Tag;
  overlay : option Image;
  finality : Finality
}.

Inductive Answer : Type :=
| Answered (e : ResponseEnvelope)
| Refused (err : OrchestratorError).

Inductive ValidationOutcome : Type := OutcomeYes | OutcomeNo.

(** What the inference back-end returns for one image. *)
Record Inference : Type := {
  label : Text;
  score : Score;
  annotated : option Image
}.

Section WithCollaborators.

(** The upload is non-empty and decodable. *)
Variable decodable : Image -> bool.
(** The router's modality detector; [None] when ambiguous. *)
Variable detectModality : Image -> option Modality.
(** The router's two intent tests on the text of a turn. *)
Variable seeksKnowledge : Text -> bool.
Variable needsExternal : Text -> bool.
(** The inference call of each vision agent. *)
Variable infer : Modality -> Image -> Inference.
(** The configured low-confidence threshold. *)
Variable threshold : Q.
(** The wording of vision replies. *)
Variable finding : Modality -> Text -> Q -> Text.
Variable lowConfidenceFinding : Modality -> Text -> Q -> Text.
Variable couldNotAnalyze : Modality -> Text.
(** The conversation, retrieval and search agents. *)
Variable dialogue : AgentId -> TurnInput -> list Turn -> AgentResult.
(** The wording of the note appended when a result is rejected. *)
Variable rejectionNote : AgentResult -> Text -> Text.

(** Section 4.2: the routing policy, in priority order. *)
Definition route (input : TurnInput) (context : list Turn) : Classification :=
  match upload input with
  | Some img =>
      match detectModality img with
      | Some m => {| selected := visionAgent m; modality := Some m |}
      | None => {| selected := Conversation; modality := None |}
      end
  | None =>
      if seeksKnowledge (text input)
      then {| selected := Retrieval; modality := None |}
      else if needsExternal (text input)
      then {| selected := Search; modality := None |}
      else {| selected := Conversation; modality := None |}
  end.

(** A vision result that reports a failure to analyze. *)
Definition visionError (m : Modality) : AgentResult :=
  {| status := StatusError; response := couldNotAnalyze m;
     agent := visionAgent m; result_image := None;
     requiresValidation := Some true; structured := None |}.

(** Section 4.5: one vision agent.  The image is validated before the
    inference call; a score that is NaN or outside [0,1] is an error; a
    confidence under the threshold is flagged in the text. *)
Definition visionHandle (m : Modality) (input : TurnInput)
    (context : list Turn) : AgentResult :=
  match upload input with
  | None => visionError m
  | Some img =>
      if negb (decodable img) then visionError m
      else
        let i := infer m img in
        match score i with
        | NaN => visionError m
        | Finite q =>
            if Qle_bool 0 q && Qle_bool q 1 then
              {| status := StatusOk;
                 response :=
                   if Qle_bool threshold q then finding m (label i) q
                   else lowConfidenceFinding m (label i) q;
                 agent := visionAgent m;
                 result_image := annotated i;
                 requiresValidation := Some true;
                 structured := Some (label i, q) |}
            else visionError m
        end
  end.

(** Section 4.1: the one operation of the agent contract. *)
Definition handle (a : AgentId) (input : TurnInput) (context : list Turn)
  : AgentResult :=
  match modalityOf a with
  | Some m => visionHandle m input context
  | None => dialogue a input context
  end.

Definition userTurn (input : TurnInput) : Turn :=
  {| role := RoleUser; content := text input; image := upload input;
     resultImage := None; tag := None |}.

Definition finalTurn (r : AgentResult) : Turn :=
  {| role := RoleAssistant; content := response r; image := None;
     resultImage := result_image r; tag := Some (ProducedBy (agent r)) |}.

Definition envelope (r : AgentResult) (f : Finality) : ResponseEnvelope :=
  {| reply := response r; by_agent := Some (ProducedBy (agent r));
     overlay := result_image r; finality := f |}.

(** An empty or undecodable upload (section 7, scenario D). *)
Definition malformed (input : TurnInput) : bool :=
  match upload input with
  | Some img => negb (decodable img)
  | None => false
  end.

(** Sections 4.6 and 4.7 on one session: a pending session rejects the
    turn; otherwise router, agent, gate transition and session update. *)
Definition turn (s : Session) (input : TurnInput) (now : Timestamp)
  : Answer * Session :=
  match gate s with
  | PENDING => (Refused ValidationPendingError, s)
  | NONE =>
      if malformed input then (Refused MalformedInputError, s)
      else
        let c := route input (history s) in
        let r := handle (selected c) input (history s) in
        match requiresValidation r with
        | Some true =>
            (Answered (envelope r PENDING_VALIDATION),
             {| history := history s ++ [userTurn input];
                pending := Some {| held := r; producer := agent r;
                                   created := now |} |})
        | _ =>
            (Answered (envelope r FINAL),
             {| history := history s ++ [userTurn input; finalTurn r];
                pending := None |})
        end
  end.

(** The accept and reject transitions of the gate. *)
Definition validation (s : Session) (outcome : ValidationOutcome)
    (comments : Text) : Answer * Session :=
  match pending s with
  | None => (Refused NoPendingValidationError, s)
  | Some p =>
      match outcome with
      | OutcomeYes =>
          (Answered {| reply := response (held p);
                       by_agent := Some HUMAN_VALIDATED;
                       overlay := result_image (held p); finality := FINAL |},
           {| history := history s ++
                [{| role := RoleAssistant; content := response (held p);
                    image := None; resultImage := result_image (held p);
                    tag := Some HUMAN_VALIDATED |}];
              pending := None |})
      | OutcomeNo =>
          (Answered {| reply := rejectionNote (held p) comments;
                       by_agent := None; overlay := None; finality := FINAL |},
           {| history := history s ++
                [{| role := RoleSystem;
                    content := rejectionNote (held p) comments;
                    image := None; resultImage := None; tag := None |}];
              pending := None |})
      end
  end.

(** [processTurn(sessionId, turnInput)]: loads or creates the session. *)
Definition processTurn (store : gmap string Session) (sessionId : string)
    (input : TurnInput) (now : Timestamp) : Answer * gmap string Session :=
  let s := default newSession (store !! sessionId) in
  let '(a, s') := turn s input now in
  (a, <[sessionId := s']> store).

(** [processValidation(sessionId, outcome, comments)] *)
Definition processValidation (store : gmap string Session) (sessionId : string)
    (outcome : ValidationOutcome) (comments : Text)
  : Answer * gmap string Session :=
  let s := default newSession (store !! sessionId) in
  let '(a, s') := validation s outcome comments in
  (a, <[sessionId := s']> store).

End WithCollaborators.

End Orchestrator.


(* ===================================================================== *)
(** ** [components/chat/Chat.tsx]: what the component renders *)
(* ===================================================================== *)

Module ChatView.

(** The [disabled] property of the Send button. *)
Definition sendDisabled (st : Chat.State) : bool :=
  Chat.isProcessing st
  || (negb (truthy (trim (Chat.input st)))
      && negb (truthy_opt (Chat.selectedImage st))).

(** The part of a keyboard event the text area looks at. *)
Record KeyboardEvent : Type := { key : jsstring; shiftKey : bool }.

(** [onKeyDown] of the text area: Enter without Shift sends. *)
Definition onKeyDown (NEXT_PUBLIC_API_URL : option jsstring)
    (st : Chat.State) (e : KeyboardEvent) : Task Chat.State unit :=
  if bool_decide (key e = js "Enter") && negb (shiftKey e)
  then Chat.handleSendMessage NEXT_PUBLIC_API_URL st
  else mret tt.

End ChatView.

(* ===================================================================== *)
(** ** [components/chat/Message.tsx]: reading a message aloud *)
(* ===================================================================== *)

(** The regular expressions of [stripMarkdown].  Each is embedded as a
    function that, given the text from the current position on, tells
    whether the expression matches there, what replaces the match and how
    many code units the match spans.  None of them matches the empty
    string. *)
Module Markdown.

(** [.] matches every code unit but a line terminator. *)
Definition isLineTerminator (c : N) : bool :=
  (c =? 10) || (c =? 13) || (c =? 8232) || (c =? 8233).

(** [text.replace(re, replacement)] for a global [re]: the text is scanned
    from the left, a match is replaced and the scan goes on after it.
    [skip] counts the code units of the last match still to pass. *)
Fixpoint replaceAll (matchAt : jsstring -> option (jsstring * nat))
    (skip : nat) (text : jsstring) : jsstring :=
  match text with
  | [] => []
  | c :: rest =>
      match skip with
      | Datatypes.S skip' => replaceAll matchAt skip' rest
      | O =>
          match matchAt text with
          | Some (replacement, span) =>
              replacement ++ replaceAll matchAt (Nat.pred span) rest
          | None => c :: replaceAll matchAt 0 rest
          end
      end
  end.

Definition replace (matchAt : jsstring -> option (jsstring * nat))
    (text : jsstring) : jsstring :=
  replaceAll matchAt 0 text.

(** [(.*?)] followed by the literal [closing]: the shortest run of code
    units, none a line terminator, after which [closing] stands. *)
Fixpoint lazyUntil (closing : jsstring) (text : jsstring) : option jsstring :=
  if startsWith text closing then Some []
  else
    match text with
    | [] => None
    | c :: rest =>
        if isLineTerminator c then None
        else option_map (cons c) (lazyUntil closing rest)
    end.

(** [([\s\S]*?)] followed by the literal [closing]. *)
Fixpoint lazyAnyUntil (closing : jsstring) (text : jsstring) : option jsstring :=
  if startsWith text closing then Some []
  else
    match text with
    | [] => None
    | c :: rest => option_map (cons c) (lazyAnyUntil closing rest)
    end.

(** [opening(.*?)closing], replaced by ["$1"]. *)
Definition delimited (opening closing : jsstring) (text : jsstring)
  : option (jsstring * nat) :=
  if startsWith text opening then
    match lazyUntil closing (drop (length opening) text) with
    | Some inner =>
        Some (inner, (length opening + length inner + length closing)%nat)
    | None => None
    end
  else None.

(** [/\*\*(.*?)\*\*/g] *)
Definition bold : jsstring -> option (jsstring * nat) :=
  delimited (js "**") (js "**").

(** [/\*(.*?)\*/g] *)
Definition italic : jsstring -> option (jsstring * nat) :=
  delimited (js "*") (js "*").

(** [/`(.*?)`/g] *)
Definition inlineCode : jsstring -> option (jsstring * nat) :=
  delimited (js "`") (js "`").

(** [/\[(.*?)\]\((.*?)\)/g], replaced by ["$1"].  When the first "](" on
    the line is not followed by a ")" on that line, no later one is. *)
Definition link (text : jsstring) : option (jsstring * nat) :=
  if startsWith text (js "[") then
    match lazyUntil (js "](") (drop 1 text) with
    | Some label =>
        match lazyUntil (js ")") (drop (1 + length label + 2) text) with
        | Some target =>
            Some (label, (1 + length label + 2 + length target + 1)%nat)
        | None => None
        end
    | None => None
    end
  else None.

(** The number of leading "#", at most [limit] ([#{1,6}] is greedy). *)
Fixpoint hashes (limit : nat) (text : jsstring) : nat :=
  match limit, text with
  | Datatypes.S limit', c :: rest =>
      if c =? 35 then Datatypes.S (hashes limit' rest) else O
  | _, _ => O
  end.

(** [(.*?)$] with the [m] flag: the rest of the line. *)
Fixpoint lineRest (text : jsstring) : jsstring :=
  match text with
  | [] => []
  | c :: rest => if isLineTerminator c then [] else c :: lineRest rest
  end.

(** [/#{1,6}\s?(.*?)$/gm], replaced by ["$1"]. *)
Definition heading (text : jsstring) : option (jsstring * nat) :=
  match hashes 6 text with
  | O => None
  | Datatypes.S _ as marks =>
      let after := drop marks text in
      let blank :=
        match after with
        | c :: _ => if isWhiteSpace c then 1%nat else 0%nat
        | [] => 0%nat
        end in
      let title := lineRest (drop blank after) in
      Some (title, (marks + blank + length title)%nat)
  end.

(** [.*?\n]: the code units up to and including the first "\n", none of
    them before it a line terminator. *)
Fixpoint throughNewline (text : jsstring) : option nat :=
  match text with
  | [] => None
  | c :: rest =>
      if c =? 10 then Some 1%nat
      else if isLineTerminator c then None
      else option_map Datatypes.S (throughNewline rest)
  end.

(** [/`{3}.*?\n([\s\S]*?)`{3}/g], replaced by ["$1"]. *)
Definition codeBlock (text : jsstring) : option (jsstring * nat) :=
  if startsWith text (js "```") then
    match throughNewline (drop 3 text) with
    | Some info =>
        match lazyAnyUntil (js "```") (drop (3 + info) text) with
        | Some code => Some (code, (3 + info + length code + 3)%nat)
        | None => None
        end
    | None => None
    end
  else None.

Fixpoint newlines (text : jsstring) : nat :=
  match text with
  | c :: rest => if c =? 10 then Datatypes.S (newlines rest) else O
  | [] => O
  end.

(** [/\n{2,}/g], replaced by ["\n"]. *)
Definition blankLines (text : jsstring) : option (jsstring * nat) :=
  match newlines text with
  | Datatypes.S (Datatypes.S _) as run => Some ([10], run)
  | _ => None
  end.

(** The length of the run of white space the text starts with ([\s+] is
    greedy, and giving back white space never helps to find the mark). *)
Fixpoint blanks (text : jsstring) : nat :=
  match text with
  | c :: rest => if isWhiteSpace c then Datatypes.S (blanks rest) else O
  | [] => O
  end.

(** [/\s+M/g] for a punctuation mark [M], replaced by the mark. *)
Definition blanksBefore (mark : N) (text : jsstring) : option (jsstring * nat) :=
  match blanks text with
  | O => None
  | Datatypes.S _ as run =>
      match drop run text with
      | c :: _ => if c =? mark then Some ([mark], Datatypes.S run) else None
      | [] => None
      end
  end.

(** [/M\s+/g], replaced by the mark and one space. *)
Definition blanksAfter (mark : N) (text : jsstring) : option (jsstring * nat) :=
  match text with
  | c :: rest =>
      if c =? mark then
        match blanks rest with
        | O => None
        | Datatypes.S _ as run => Some ([mark; 32], Datatypes.S run)
        end
      else None
  | [] => None
  end.

Definition comma : N := 44.
Definition period : N := 46.
Definition question : N := 63.
Definition exclamation : N := 33.
Definition semicolon : N := 59.

(** The first chain of [stripMarkdown]: markdown, blank lines, [trim]. *)
Definition withoutMarkup (text : jsstring) : jsstring :=
  trim
    (replace blankLines
       (replace inlineCode
          (replace codeBlock
             (replace heading
                (replace link
                   (replace italic
                      (replace bold text))))))).

(** The second chain: white space around punctuation. *)
Definition spacedPunctuation (cleaned : jsstring) : jsstring :=
  replace (blanksAfter semicolon)
    (replace (blanksBefore semicolon)
       (replace (blanksAfter exclamation)
          (replace (blanksBefore exclamation)
             (replace (blanksAfter question)
                (replace (blanksBefore question)
                   (replace (blanksAfter period)
                      (replace (blanksAfter comma)
                         (replace (blanksBefore period)
                            (replace (blanksBefore comma) cleaned))))))))).

(** [stripMarkdown]; the check for a lone "Phẩy" only logs a warning. *)
Definition stripMarkdown (text : jsstring) : jsstring :=
  spacedPunctuation (withoutMarkup text).

End Markdown.

(** The audio controls of a [Message].  The [audio] element is always
    rendered, so [audioRef.current] is taken to be set; the handlers that
    read the element back ([handlePauseAudio], [handleAudioEnded]) are not
    embedded. *)
Module Player.

(** Calls into the browser that leave no trace in the component. *)
Inductive Call : Type :=
| Alert (message : jsstring)      (* [alert(message)] *)
| Play.                           (* [audioRef.current.play()] *)

(** The [useState] cells of the component, the two properties of the
    audio element the handler writes, and the browser calls made so far. *)
Record State : Type := {
  isPlaying : bool;
  isGenerating : bool;
  language : jsstring;
  validationComments : jsstring;
  src : jsstring;
  playbackRate : Q;
  calls : list Call
}.

(** The initial values: Vietnamese, nothing playing. *)
Definition initial : State :=
  {| isPlaying := false; isGenerating := false; language := js "vi-VN";
     validationComments := js ""; src := js ""; playbackRate := 1;
     calls := [] |}.

Definition setIsPlaying (v : bool) : Task State unit :=
  set (fun st =>
    {| isPlaying := v; isGenerating := isGenerating st;
       language := language st; validationComments := validationComments st;
       src := src st; playbackRate := playbackRate st; calls := calls st |}).

Definition setIsGenerating (v : bool) : Task State unit :=
  set (fun st =>
    {| isPlaying := isPlaying st; isGenerating := v;
       language := language st; validationComments := validationComments st;
       src := src st; playbackRate := playbackRate st; calls := calls st |}).

Definition setLanguage (f : jsstring -> jsstring) : Task State unit :=
  set (fun st =>
    {| isPlaying := isPlaying st; isGenerating := isGenerating st;
       language := f (language st);
       validationComments := validationComments st;
       src := src st; playbackRate := playbackRate st; calls := calls st |}).

Definition setSrc (v : jsstring) : Task State unit :=
  set (fun st =>
    {| isPlaying := isPlaying st; isGenerating := isGenerating st;
       language := language st; validationComments := validationComments st;
       src := v; playbackRate := playbackRate st; calls := calls st |}).

Definition setPlaybackRate (v : Q) : Task State unit :=
  set (fun st =>
    {| isPlaying := isPlaying st; isGenerating := isGenerating st;
       language := language st; validationComments := validationComments st;
       src := src st; playbackRate := v; calls := calls st |}).

Definition call (c : Call) : Task State unit :=
  set (fun st =>
    {| isPlaying := isPlaying st; isGenerating := isGenerating st;
       language := language st; validationComments := validationComments st;
       src := src st; playbackRate := playbackRate st;
       calls := calls st ++ [c] |}).

(** [toggleLanguage] *)
Definition toggleLanguage : Task State unit :=
  setLanguage (fun prev =>
    if bool_decide (prev = js "vi-VN") then js "en-US" else js "vi-VN").

(** [/^[,.?!;:]$/.test(text)] *)
Definition lonePunctuation (text : jsstring) : bool :=
  match text with
  | [c] => (c =? 44) || (c =? 46) || (c =? 63) || (c =? 33) || (c =? 59)
           || (c =? 58)
  | _ => false
  end.

(** The sentence spoken when the text is too short to be spoken. *)
Definition cannotBeSpoken (language : jsstring) : jsstring :=
  if bool_decide (language = js "vi-VN")
  then js "Xin lỗi, không thể phát âm đoạn văn bản này."
  else js "Sorry, this text cannot be spoken.".

(** The message of the alert shown when the speech cannot be produced. *)
Definition unableToSpeak (language : jsstring) : jsstring :=
  if bool_decide (language = js "vi-VN")
  then js "Không thể phát âm đoạn văn bản này."
  else js "Unable to speak this text.".

(** The text handed to [generateSpeech]: the content without markdown, or
    the fixed sentence when that is shorter than two code units (or one
    punctuation mark) after trimming. *)
Definition spokenText (content language : jsstring) : jsstring :=
  let cleanedText := Markdown.stripMarkdown content in
  if (length (trim cleanedText) <? 2)%nat || lonePunctuation (trim cleanedText)
  then cannotBeSpoken language
  else cleanedText.

Section WithEnvironment.

Variable NEXT_PUBLIC_API_URL : option jsstring.

(** [handlePlayAudio] for a message with the given [content]; [audioUrl]
    is what [URL.createObjectURL] returns for the audio.  The callbacks
    given to the promise of [play()] and to [onerror] run later, outside
    the handler. *)
Definition handlePlayAudio (content audioUrl : jsstring) (st : State)
  : Task State unit :=
  if isGenerating st || isPlaying st then mret tt
  else
    try_finally
      (try_catch
         (setIsGenerating true;;
          let cleanedText := spokenText content (language st) in
          try_catch
            (audioBlob ← Api.generateSpeech NEXT_PUBLIC_API_URL
                           (SpeechRequest.mk cleanedText None
                              (Some (language st)));
             if (length (blob_bytes audioBlob) <? 100)%nat
             then Throw (Error (js "Invalid audio response"))
             else
               setSrc audioUrl;;
               setPlaybackRate (12 # 10);;
               call Play)
            (fun error => call (Alert (unableToSpeak (language st)))))
         (fun error => mret tt))
      (setIsGenerating false).

End WithEnvironment.

(** [.then(() => setIsPlaying(true))] on the promise of [play()]. *)
Definition onPlayResolved : Task State unit := setIsPlaying true.

(** A handler suspended at its [await]. *)
Record Suspended : Type := {
  request : Request;
  resume : Outcome (payload KBlob) -> Task State unit
}.

(** Run a task up to its first speech request. *)
Fixpoint upToAwait (t : Task State unit) (st : State)
  : State * option Suspended :=
  match t with
  | Ret _ => (st, None)
  | Throw _ => (st, None)
  | SetState f k => upToAwait k (f st)
  | Await KBlob req k => (st, Some {| request := req; resume := k |})
  | Await _ _ _ => (st, None)
  end.

(** The component after [setIsGenerating(v)]. *)
Definition withGenerating (v : bool) (st : State) : State :=
  {| isPlaying := isPlaying st; isGenerating := v;
     language := language st; validationComments := validationComments st;
     src := src st; playbackRate := playbackRate st; calls := calls st |}.

(** The component once the audio was handed to the element and started. *)
Definition started (audioUrl : jsstring) (st : State) : State :=
  {| isPlaying := isPlaying st; isGenerating := false;
     language := language st; validationComments := validationComments st;
     src := audioUrl; playbackRate := 12 # 10; calls := calls st ++ [Play] |}.

(** The component once the user was told that the text cannot be spoken,
    in the language the handler was started with. *)
Definition refused (clicked : jsstring) (st : State) : State :=
  {| isPlaying := isPlaying st; isGenerating := false;
     language := language st; validationComments := validationComments st;
     src := src st; playbackRate := playbackRate st;
     calls := calls st ++ [Alert (unableToSpeak clicked)] |}.

(** The component after a click on the language button. *)
Definition toggled (st : State) : State :=
  fst (upToAwait toggleLanguage st).

End Player.

(* ===================================================================== *)
(** ** Scenarios *)
(* ===================================================================== *)

Import Chat.

(** A session that holds a pending brain-tumour result: the user asked
    about a scan and the server's reply asks for human validation. *)
Definition heldResult : ChatResponse.t :=
  ChatResponse.mk (js "success") (js "Glioma detected (confidence 0.93).")
    (js "BRAIN_TUMOR_AGENT, HUMAN_VALIDATION") None.

Definition pendingWorld : World :=
  steps None start
    [ChangeInput (js "please analyse my scan");
     SendMessage;
     Settle 0 KChat (success heldResult)].

(** A validation response that echoes the held text. *)
Definition echoedResult : ValidationResponse.t :=
  ValidationResponse.mk (js "validated")
    (js "**Output confirmed by human validator:**")
    (ChatResponse.response heldResult).

(** The reply the server gives to the second question of the trace below. *)
Definition secondReply : ChatResponse.t :=
  ChatResponse.mk (js "success") (js "A glioma is a tumour of glial cells.")
    (js "RAG_AGENT") None.

Definition confirmation : ValidationResponse.t :=
  ValidationResponse.mk (js "validated")
    (js "**Output confirmed by human validator:**") (js "Confirmed.").

(** While a result awaits validation the user asks a second question and,
    before its reply arrives, clicks "Yes"; the validation is answered
    first, then a third question is sent, then the replies arrive. *)
Definition overlappingCalls : list Event :=
  [ChangeInput (js "what is a glioma?");
   SendMessage;
   Validation 2 MessageView.YesButton (js "ok")].

Definition overlappingReplies : list Event :=
  [Settle 1 KValidation (success confirmation);
   ChangeInput (js "and a meningioma?");
   SendMessage;
   Settle 0 KChat (success secondReply)].

(** The same session a little later: the question about gliomas is still
    unanswered, the validation has been answered, and the next question is
    typed but not yet sent. *)
Definition unansweredWorld : World :=
  steps None pendingWorld
    (overlappingCalls
       ++ [Settle 1 KValidation (success confirmation);
           ChangeInput (js "and a meningioma?")]).

(** A small deployment of the orchestrator's collaborators: the first byte
    of an upload tells its modality, the back-end always answers with the
    same finding, and the other agents echo the text of the turn. *)
Module Deployment.
Import Orchestrator.

Definition decodable (img : Image) : bool :=
  match img with [] => false | _ :: _ => true end.

Definition detectModality (img : Image) : option Modality :=
  match img with
  | 1 :: _ => Some BrainMRI
  | 2 :: _ => Some ChestXrayImage
  | 3 :: _ => Some SkinLesionImage
  | _ => None
  end.

Definition seeksKnowledge (t : Text) : bool := includes t (js "what is").
Definition needsExternal (t : Text) : bool := includes t (js "latest").

Definition infer (m : Modality) (img : Image) : Inference :=
  {| label := js "finding"; score := Finite (97 # 100); annotated := None |}.

Definition threshold : Q := 1 # 2.

Definition finding (m : Modality) (l : Text) (q : Q) : Text := l.
Definition lowConfidenceFinding (m : Modality) (l : Text) (q : Q) : Text :=
  js "low confidence: " ++ l.
Definition couldNotAnalyze (m : Modality) : Text :=
  js "could not analyze the image".

Definition dialogue (a : AgentId) (input : TurnInput) (context : list Turn)
  : AgentResult :=
  {| status := StatusOk; response := text input; agent := a;
     result_image := None; requiresValidation := None; structured := None |}.

Definition turn (s : Session) (input : TurnInput) (now : Timestamp)
  : Answer * Session :=
  Orchestrator.turn decodable detectModality seeksKnowledge needsExternal
    infer threshold finding lowConfidenceFinding couldNotAnalyze dialogue
    s input now.

Definition processTurn (store : gmap string Session) (sessionId : string)
    (input : TurnInput) (now : Timestamp) : Answer * gmap string Session :=
  Orchestrator.processTurn decodable detectModality seeksKnowledge
    needsExternal infer threshold finding lowConfidenceFinding
    couldNotAnalyze dialogue store sessionId input now.

(** Scenario B: an image-only turn with a chest X-ray. *)
Definition chestXray : TurnInput := {| text := js ""; upload := Some [2; 0; 1] |}.

(** The session after scenario B. *)
Definition afterChestXray : Session := snd (turn newSession chestXray 0).

End Deployment.

(* ===================================================================== *)
(** ** Invariants of the component *)
(* ===================================================================== *)

(** A task whose state updates only ever append to the message list. *)
Inductive AppendOnly {A : Type} : Task State A -> Prop :=
| ao_ret (a : A) : AppendOnly (Ret a)
| ao_throw (e : JsError) : AppendOnly (Throw e)
| ao_set (f : State -> State) (k : Task State A) :
    (forall st, exists more, messages (f st) = messages st ++ more) ->
    AppendOnly k -> AppendOnly (SetState f k)
| ao_await (kd : Kind) (req : Request)
    (k : Outcome (payload kd) -> Task State A) :
    (forall o, AppendOnly (k o)) -> AppendOnly (Await kd req k).

(** A task that may do anything to the state before its first [await],
    and only appends once it has been suspended. *)
Inductive Tame : Task State unit -> Prop :=
| tame_ret (a : unit) : Tame (Ret a)
| tame_throw (e : JsError) : Tame (Throw e)
| tame_set (f : State -> State) (k : Task State unit) :
    Tame k -> Tame (SetState f k)
| tame_await (kd : Kind) (req : Request)
    (k : Outcome (payload kd) -> Task State unit) :
    (forall o, AppendOnly (k o)) -> Tame (Await kd req k).

(** Every suspended handler of the world only appends when resumed. *)
Definition Sound (w : World) : Prop :=
  Forall (fun s => forall o, AppendOnly (resume s o)) (inflight w).

(** ** Turns and texts *)

(** The state a settled handler leaves: one more entry, the flag down. *)
Definition finished (u : State) (entry : Message.t) : State :=
  {| messages := messages u ++ [entry]; input := input u;
     isRecording := isRecording u; isProcessing := false;
     selectedImage := selectedImage u |}.

(** The entry a chat or upload call ends with. *)
Definition chatEntry (o : Outcome (payload KChat)) : Message.t :=
  match delivered o with
  | Some response => reply response
  | None => requestFailed
  end.

(** The greeting screen with a question typed. *)
Definition askedWorld : World :=
  step None start (ChangeInput (js "what is a glioma?")).

(** The greeting screen with an image picked and a caption typed. *)
Definition pickedWorld : World :=
  steps None start
    [ImageUpload (Some {| file_bits := []; file_name := js "scan.png" |})
       (js "data:image/png;base64,AAAA");
     ChangeInput (js " my scan ")].

(** A text whose first code unit, if any, is not white space. *)
Definition startsClean (s : jsstring) : Prop :=
  forall c, head s = Some c -> isWhiteSpace c = false.

(** A task that awaits chat, upload, data URL or validation requests only. *)
Inductive Calm {A : Type} : Task State A -> Prop :=
| calm_ret (a : A) : Calm (Ret a)
| calm_throw (e : JsError) : Calm (Throw e)
| calm_set (f : State -> State) (k : Task State A) :
    Calm k -> Calm (SetState f k)
| calm_await (kd : Kind) (req : Request)
    (k : Outcome (payload kd) -> Task State A) :
    kd <> KTranscript -> (forall o, Calm (k o)) -> Calm (Await kd req k).

(** A task that never changes [isProcessing] and awaits transcriptions
    only. *)
Inductive Quiet {A : Type} : Task State A -> Prop :=
| quiet_ret (a : A) : Quiet (Ret a)
| quiet_throw (e : JsError) : Quiet (Throw e)
| quiet_set (f : State -> State) (k : Task State A) :
    (forall st, isProcessing (f st) = isProcessing st) ->
    Quiet k -> Quiet (SetState f k)
| quiet_await (req : Request)
    (k : Outcome (payload KTranscript) -> Task State A) :
    (forall o, Quiet (k o)) -> Quiet (Await KTranscript req k).

(** A calm task whose every end is a state update that lowers
    [isProcessing]. *)
Inductive Lowers : Task State unit -> Prop :=
| lowers_ret (f : State -> State) (a : unit) :
    (forall st, isProcessing (f st) = false) -> Lowers (SetState f (Ret a))
| lowers_throw (f : State -> State) (e : JsError) :
    (forall st, isProcessing (f st) = false) -> Lowers (SetState f (Throw e))
| lowers_set (f : State -> State) (k : Task State unit) :
    Lowers k -> Lowers (SetState f k)
| lowers_await (kd : Kind) (req : Request)
    (k : Outcome (payload kd) -> Task State unit) :
    kd <> KTranscript -> (forall o, Lowers (k o)) -> Lowers (Await kd req k).

(** While the indicator shows, a handler that will lower it is pending;
    and every pending handler is of one of the two well-behaved sorts. *)
Definition Attended (w : World) : Prop :=
  (isProcessing (ui w) = true ->
   Exists (fun s => awaiting s <> KTranscript) (inflight w))
  /\ Forall (fun s =>
       (awaiting s <> KTranscript -> forall o, Lowers (resume s o))
       /\ (awaiting s = KTranscript -> forall o, Quiet (resume s o)))
       (inflight w).

(** A match spans at least one code unit of the text, and what replaces it
    is no longer than the match. *)
Definition Shrinking (matchAt : jsstring -> option (jsstring * nat)) : Prop :=
  forall text replacement span,
    matchAt text = Some (replacement, span) ->
    (1 <= span <= length text /\ length replacement <= span)%nat.

(** The characters the markdown expressions start with: "*", "[", "#"
    and the backquote. *)
Definition isMarkup (c : N) : bool :=
  (c =? 42) || (c =? 91) || (c =? 35) || (c =? 96).

(** The punctuation marks of the second chain. *)
Definition isSpacedMark (c : N) : bool :=
  (c =? Markdown.comma) || (c =? Markdown.period) || (c =? Markdown.question) || (c =? Markdown.exclamation)
  || (c =? Markdown.semicolon).

(** Plain prose: no markdown character, and white space only as single
    spaces, none of them before one of the punctuation marks. *)
Fixpoint plainProse (text : jsstring) : bool :=
  match text with
  | [] => true
  | c :: rest =>
      negb (isMarkup c)
      && (if isWhiteSpace c
          then (c =? 32)
               && match rest with
                  | d :: _ => negb (isWhiteSpace d) && negb (isSpacedMark d)
                  | [] => true
                  end
          else true)
      && plainProse rest
  end.

(** A match, if there is one at the start of the text, is replaced by
    itself. *)
Definition Keeps (matchAt : jsstring -> option (jsstring * nat))
    (text : jsstring) : Prop :=
  match matchAt text with
  | Some (replacement, span) => (1 <= span)%nat /\ replacement = take span text
  | None => True
  end.

(* ===================================================================== *)
(** * Properties *)
(* ===================================================================== *)

(** ** Strings *)

Lemma startsWith_app (a s p : jsstring) :
  startsWith a p = true -> startsWith (a ++ s) p = true.
Proof.
  revert a; induction p as [|c p IH]; intros a H; [reflexivity|].
  destruct a as [|d a]; simpl in *; [discriminate|].
  apply andb_true_iff in H as [Hc Hp].
  rewrite Hc; simpl; auto.
Qed.

Lemma startsWith_nil (p : jsstring) : startsWith [] p = negb (truthy p).
Proof. destruct p; reflexivity. Qed.

Lemma truthy_false (s : jsstring) : truthy s = false <-> s = [].
Proof. destruct s; simpl; split; congruence. Qed.

(** ** Request shapes *)

(** C6. A click on either validation button posts to
    [<API base>/api/validate] a form with exactly the two fields
    [validation_result] (the string "yes" or "no") and [comments], in that
    order; this is the only request the click issues, and it is issued
    exactly when the controls are rendered for that message.  A successful
    response is handed back as the [ValidationResponse] it carries (fields
    [status], [message], [response]). *)
Theorem C6_validation_posts_two_field_form
    (env : option jsstring) (S : Type)
    (b : MessageView.Button) (comments : jsstring) :
  let validation := MessageView.buttonValue b in
  let request :=
    {| url := Api.API_BASE_URL env ++ js "/api/validate";
       method := POST;
       headers := [];
       body := Some (FormBody [(js "validation_result", FormString validation);
                               (js "comments", FormString comments)]);
       credentials := Some Include |} in
  (validation = js "yes" \/ validation = js "no")
  /\ (exists k,
        @Api.sendValidation env S validation comments
        = Await KValidation request k
        /\ forall code body (r : ValidationResponse.t),
             k (Responded {| ok := true; status := code; text := body;
                             parsed := Some r |}) = Ret r
             /\ r = ValidationResponse.mk (ValidationResponse.status r)
                      (ValidationResponse.message r)
                      (ValidationResponse.response r))
  /\ (forall (w : World) (index : nat),
        sent (step env w (Validation index b comments))
        = sent w ++
            match messages (ui w) !! index with
            | Some message =>
                if MessageView.asksValidation message then [request] else []
            | None => []
            end).
Proof.
  intros validation request. split; [|split].
  - destruct b; [left|right]; reflexivity.
  - eexists; split; [reflexivity|].
    intros code body [s m r]; split; reflexivity.
  - intros w index. simpl.
    destruct (messages (ui w) !! index) as [message|];
      [|symmetry; apply app_nil_r].
    unfold MessageView.rendersControls, onValidationFor.
    destruct (MessageView.asksValidation message); simpl;
      [reflexivity | symmetry; apply app_nil_r].
Qed.

(** C7. A text-only turn that passes the guard posts to
    [<API base>/api/chat] a JSON object with exactly the properties [query]
    (the trimmed input) and [conversation_history] (always the empty list
    of turns); a successful response is handed back as the [ChatResponse]
    it carries (fields [status], [response], [agent] and the optional
    [result_image]). *)
Theorem C7_text_turn_posts_query_and_history
    (env : option jsstring) (w : World) :
  sendBlocked (ui w) = false ->
  truthy_opt (selectedImage (ui w)) = false ->
  let query := trim (input (ui w)) in
  let request :=
    {| url := Api.API_BASE_URL env ++ js "/api/chat";
       method := POST;
       headers := [(js "Content-Type", js "application/json")];
       body := Some (JsonBody (JObject
                  [(js "query", JString query);
                   (js "conversation_history", JArray [])]));
       credentials := Some Include |} in
  sent (step env w SendMessage) = sent w ++ [request]
  /\ exists k,
       @Api.sendChatMessage env State query = Await KChat request k
       /\ forall code body (r : ChatResponse.t),
            k (Responded {| ok := true; status := code; text := body;
                            parsed := Some r |}) = Ret r
            /\ r = ChatResponse.mk (ChatResponse.status r)
                     (ChatResponse.response r) (ChatResponse.agent r)
                     (ChatResponse.result_image r).
Proof.
  intros Hguard Himage query request. split.
  - unfold step, handleSendMessage. rewrite Hguard.
    destruct (selectedImage (ui w)) as [[|c dataUrl]|];
      simpl in Himage; try discriminate; reflexivity.
  - eexists; split; [reflexivity|].
    intros code body [s r a ri]; split; reflexivity.
Qed.

(** C8. [generateSpeech] posts to [<API base>/api/generate-speech] the JSON
    serialisation of its request: the property [text], then [voice_id] and
    [language] when they are defined; on success it returns the response's
    blob as it is. *)
Theorem C8_speech_request_and_audio
    (env : option jsstring) (S : Type) (request : SpeechRequest.t) :
  exists k,
    @Api.generateSpeech env S request
    = Await KBlob
        {| url := Api.API_BASE_URL env ++ js "/api/generate-speech";
           method := POST;
           headers := [(js "Content-Type", js "application/json")];
           body := Some (JsonBody (JObject
                     ((js "text", JString (SpeechRequest.text request))
                        :: match SpeechRequest.voice_id request with
                           | Some v => [(js "voice_id", JString v)]
                           | None => []
                           end
                        ++ match SpeechRequest.language request with
                           | Some l => [(js "language", JString l)]
                           | None => []
                           end)));
           credentials := None |}
        k
    /\ forall code body (audio : Blob),
         k (Responded {| ok := true; status := code; text := body;
                         parsed := Some audio |}) = Ret audio.
Proof.
  eexists; split; [reflexivity|].
  intros code body audio; reflexivity.
Qed.

(** Witness for C7: the greeting screen with "what is a glioma?" typed. *)
Lemma C7_witness :
  let w := steps None start [ChangeInput (js "  what is a glioma? ")] in
  sent (step None w SendMessage)
  = [ {| url := js "http://localhost:8000/api/chat";
         method := POST;
         headers := [(js "Content-Type", js "application/json")];
         body := Some (JsonBody (JObject
                    [(js "query", JString (js "what is a glioma?"));
                     (js "conversation_history", JArray [])]));
         credentials := Some Include |} ].
Proof.
  exact (proj1 (C7_text_turn_posts_query_and_history None
                  (steps None start [ChangeInput (js "  what is a glioma? ")])
                  eq_refl eq_refl)).
Defined.

(** ** [uploadImage] and the result image *)

(** C9 as stated fails in two ways.  An empty [result_image] is falsy, so it
    is handed to the caller as it is although it does not start with
    "http"; and with a base URL that is itself relative the prefixed value
    does not start with "http" either. *)
Lemma C9_counterexample :
  let empty :=
    ChatResponse.mk (js "success") (js "done") (js "SKIN_LESION_AGENT")
      (Some (js "")) in
  let relative :=
    ChatResponse.mk (js "success") (js "done") (js "SKIN_LESION_AGENT")
      (Some (js "/uploads/seg.png")) in
  let image := {| file_bits := []; file_name := js "image.jpg" |} in
  (exists k,
     @Api.uploadImage None unit image None
     = Await KChat (Api.uploadRequest None image (js "")) k
     /\ k (success empty) = Ret empty
     /\ ChatResponse.result_image empty = Some (js "")
     /\ startsWith (js "") (js "http") = false)
  /\ (exists k,
        @Api.uploadImage (Some (js "/backend")) unit image None
        = Await KChat (Api.uploadRequest (Some (js "/backend")) image (js "")) k
        /\ k (success relative)
           = Ret (ChatResponse.set_result_image relative
                    (js "/backend/uploads/seg.png"))
        /\ startsWith (js "/backend/uploads/seg.png") (js "http") = false).
Proof.
  split; eexists; repeat split; reflexivity.
Qed.

(** C9, amended.  [uploadImage] posts the form and, on success, hands back
    the response with [status], [response] and [agent] unchanged.  A
    [result_image] that is absent, empty or already starts with "http" is
    unchanged; any other is prefixed with the API base URL.  Hence, when
    the base URL starts with "http" (the default does), every non-empty
    [result_image] handed to the caller starts with "http". *)
Theorem C9_result_image_made_absolute
    (env : option jsstring) (S : Type) (image : File) (text : option jsstring)
    (code : N) (body : jsstring) (data : ChatResponse.t) :
  exists k data',
    @Api.uploadImage env S image text
    = Await KChat (Api.uploadRequest env image (default (js "") text)) k
    /\ k (Responded {| ok := true; status := code; text := body;
                       parsed := Some data |}) = Ret data'
    /\ ChatResponse.status data' = ChatResponse.status data
    /\ ChatResponse.response data' = ChatResponse.response data
    /\ ChatResponse.agent data' = ChatResponse.agent data
    /\ ChatResponse.result_image data'
       = match ChatResponse.result_image data with
         | None => None
         | Some v =>
             if truthy v && negb (startsWith v (js "http"))
             then Some (Api.API_BASE_URL env ++ v)
             else Some v
         end
    /\ (startsWith (Api.API_BASE_URL env) (js "http") = true ->
        forall v, ChatResponse.result_image data' = Some v ->
                  v <> js "" -> startsWith v (js "http") = true)
    /\ startsWith (Api.API_BASE_URL None) (js "http") = true.
Proof.
  eexists; exists (Api.fullResultImage env data).
  split; [reflexivity|]. split; [reflexivity|].
  assert (Himage :
    ChatResponse.result_image (Api.fullResultImage env data)
    = match ChatResponse.result_image data with
      | None => None
      | Some v =>
          if truthy v && negb (startsWith v (js "http"))
          then Some (Api.API_BASE_URL env ++ v)
          else Some v
      end).
  { unfold Api.fullResultImage.
    destruct (ChatResponse.result_image data) as [v|] eqn:Hv; [|exact Hv].
    destruct (truthy v && negb (startsWith v (js "http"))); [reflexivity|exact Hv]. }
  repeat split.
  - unfold Api.fullResultImage.
    destruct (ChatResponse.result_image data) as [v|]; [|reflexivity].
    destruct (truthy v && negb (startsWith v (js "http"))); reflexivity.
  - unfold Api.fullResultImage.
    destruct (ChatResponse.result_image data) as [v|]; [|reflexivity].
    destruct (truthy v && negb (startsWith v (js "http"))); reflexivity.
  - unfold Api.fullResultImage.
    destruct (ChatResponse.result_image data) as [v|]; [|reflexivity].
    destruct (truthy v && negb (startsWith v (js "http"))); reflexivity.
  - exact Himage.
  - intros Hbase v Hv Hne. rewrite Himage in Hv.
    destruct (ChatResponse.result_image data) as [v0|]; [|discriminate].
    destruct (truthy v0 && negb (startsWith v0 (js "http"))) eqn:Hcond;
      injection Hv as <-.
    + apply startsWith_app, Hbase.
    + apply andb_false_iff in Hcond as [Ht|Hs].
      * apply truthy_false in Ht. contradiction.
      * apply negb_false_iff in Hs. exact Hs.
Qed.

(** Witness for C9's conditional part: the default base URL and a
    server-relative path. *)
Lemma C9_witness :
  exists k data',
    @Api.uploadImage None unit
       {| file_bits := []; file_name := js "image.jpg" |} (Some (js "scan"))
    = Await KChat
        (Api.uploadRequest None
           {| file_bits := []; file_name := js "image.jpg" |} (js "scan")) k
    /\ k (success (ChatResponse.mk (js "success") (js "done")
                     (js "SKIN_LESION_AGENT") (Some (js "/uploads/seg.png"))))
       = Ret data'
    /\ ChatResponse.result_image data'
       = Some (js "http://localhost:8000/uploads/seg.png").
Proof.
  destruct (C9_result_image_made_absolute None unit
              {| file_bits := []; file_name := js "image.jpg" |}
              (Some (js "scan")) 200 []
              (ChatResponse.mk (js "success") (js "done")
                 (js "SKIN_LESION_AGENT") (Some (js "/uploads/seg.png"))))
    as (k & data' & Hcall & Hret & _ & _ & _ & Himage & _).
  exists k, data'. repeat split; assumption.
Defined.

(** ** The guard of [handleSendMessage] *)

(** With a blank input and no image selected, or while [isProcessing] is
    set, [handleSendMessage] returns at once: the handler is the empty task
    and the whole component (messages, input, selected image, pending
    handlers and the log of issued requests) is as before. *)
Lemma send_refused_when_blocked (env : option jsstring) (w : World) :
  (trim (input (ui w)) = js "" /\ selectedImage (ui w) = None)
  \/ isProcessing (ui w) = true ->
  handleSendMessage env (ui w) = Ret tt
  /\ step env w SendMessage = w
  /\ sent (step env w SendMessage) = sent w
  /\ messages (ui (step env w SendMessage)) = messages (ui w)
  /\ input (ui (step env w SendMessage)) = input (ui w)
  /\ selectedImage (ui (step env w SendMessage)) = selectedImage (ui w).
Proof.
  intros H.
  assert (Hblocked : sendBlocked (ui w) = true).
  { unfold sendBlocked. destruct H as [[Htrim Himage]|Hbusy].
    - rewrite Htrim, Himage. reflexivity.
    - rewrite Hbusy. apply orb_true_r. }
  assert (Hstep : step env w SendMessage = w).
  { unfold step, handleSendMessage. rewrite Hblocked. reflexivity. }
  split; [unfold handleSendMessage; rewrite Hblocked; reflexivity|].
  rewrite Hstep. repeat split.
Qed.

(** C10 fails while a previous turn is still processing.  The guard reads
    the [isProcessing] flag, not the pending requests, and the flag is
    lowered by whichever handler ends first.  In [unansweredWorld] the
    request of the question "what is a glioma?" is still pending and its
    user entry is the last but one of the history, with no reply yet; the
    validation that was clicked meanwhile has settled and its [finally] has
    lowered the flag.  A send is then accepted: it posts a second
    [/api/chat] request, appends a user entry and empties the input.  One
    step earlier, with the flag still up, the same send is refused. *)
Theorem C10_send_accepted_while_turn_pending :
  let busy :=
    steps None pendingWorld
      (overlappingCalls ++ [ChangeInput (js "and a meningioma?")]) in
  let w := unansweredWorld in
  (isProcessing (ui busy) = true /\ step None busy SendMessage = busy)
  /\ map awaiting (inflight w) = [KChat]
  /\ sent w
     = sent pendingWorld
       ++ [Api.chatRequest None (js "what is a glioma?");
           Api.validationRequest None (js "yes") (js "ok")]
  /\ map (fun m => (Message.role m, Message.content m, Message.agent m))
       (messages (ui w))
     = map (fun m => (Message.role m, Message.content m, Message.agent m))
         (messages (ui pendingWorld))
       ++ [(user, js "what is a glioma?", None);
           (assistant, js "Confirmed.", Some (js "HUMAN_VALIDATED"))]
  /\ isProcessing (ui w) = false
  /\ input (ui w) = js "and a meningioma?"
  /\ sent (step None w SendMessage)
     = sent w ++ [Api.chatRequest None (js "and a meningioma?")]
  /\ messages (ui (step None w SendMessage))
     = messages (ui w)
       ++ [Message.mk user (js "and a meningioma?") None None None]
  /\ input (ui (step None w SendMessage)) = js ""
  /\ map awaiting (inflight (step None w SendMessage)) = [KChat; KChat].
Proof.
  split.
  - split; [vm_compute; reflexivity|].
    apply send_refused_when_blocked. right. vm_compute. reflexivity.
  - repeat match goal with |- _ /\ _ => split end; vm_compute; reflexivity.
Qed.

(** ** Validation submissions *)

(** C1 as stated fails.  With outcome "yes" and comments "ok" on the pending
    result: when the request fails, the one new entry is the untagged
    system notice; and when it succeeds, the entry's content is the text of
    the validation response, which need not be the held text. *)
Lemma C1_counterexample :
  let click := Validation 2 MessageView.YesButton (js "ok") in
  let other :=
    ValidationResponse.mk (js "validated")
      (js "**Output confirmed by human validator:**") (js "Thank you.") in
  messages (ui pendingWorld) !! 2%nat = Some (reply heldResult)
  /\ MessageView.asksValidation (reply heldResult) = true
  /\ messages (ui (steps None pendingWorld
                     [click; Settle 0 KValidation (failure 500)]))
     = messages (ui pendingWorld) ++ [validationFailed]
  /\ Message.agent validationFailed = None
  /\ messages (ui (steps None pendingWorld
                     [click; Settle 0 KValidation (success other)]))
     = messages (ui pendingWorld)
       ++ [Message.mk assistant (js "Thank you.") None
             (Some (js "HUMAN_VALIDATED")) None]
  /\ js "Thank you." <> ChatResponse.response heldResult.
Proof.
  repeat split; try (vm_compute; reflexivity).
  intros H; vm_compute in H; discriminate H.
Qed.

(** C1, amended.  A click on a validation button of a message that asks for
    validation issues one [/api/validate] request and appends nothing yet;
    when that request settles, exactly one entry is appended.  If the
    request succeeded the entry is an assistant entry tagged
    [HUMAN_VALIDATED] whose content is the [response] text of the
    validation response; otherwise it is the untagged system notice. *)
Theorem C1_validation_appends_one_entry
    (env : option jsstring) (w : World) (index : nat) (message : Message.t)
    (b : MessageView.Button) (comments : jsstring)
    (o : Outcome (payload KValidation)) :
  messages (ui w) !! index = Some message ->
  MessageView.asksValidation message = true ->
  let w1 := step env w (Validation index b comments) in
  let w2 := step env w1 (Settle (length (inflight w)) KValidation o) in
  sent w1
  = sent w ++ [Api.validationRequest env (MessageView.buttonValue b) comments]
  /\ messages (ui w1) = messages (ui w)
  /\ messages (ui w2)
     = messages (ui w) ++
         [match delivered o with
          | Some r =>
              Message.mk assistant (ValidationResponse.response r) None
                (Some (js "HUMAN_VALIDATED")) None
          | None =>
              Message.mk system
                (js "Sorry, there was an error processing your validation. Please try again.")
                None None None
          end].
Proof.
  intros Hlookup Hasks w1 w2.
  assert (Hw1 : exists k,
    w1 = {| ui := ui (run (setIsProcessing true) w);
            inflight := inflight w ++
              [{| awaiting := KValidation;
                  request := Api.validationRequest env
                               (MessageView.buttonValue b) comments;
                  resume := k |}];
            sent := sent w ++
              [Api.validationRequest env (MessageView.buttonValue b) comments] |}
    /\ forall o' u, messages (ui (run (k o') u))
         = messages (ui u) ++
             [match delivered o' with
              | Some r => validated r
              | None => validationFailed
              end]).
  { eexists; split.
    - subst w1. unfold step. rewrite Hlookup.
      unfold MessageView.rendersControls, onValidationFor. rewrite Hasks.
      reflexivity.
    - intros [e|[[] code body [r|]]] u; reflexivity. }
  destruct Hw1 as (k & Hw1 & Hk).
  split; [rewrite Hw1; reflexivity|].
  split; [rewrite Hw1; reflexivity|].
  subst w2. rewrite Hw1. unfold step. simpl inflight.
  rewrite list_lookup_middle by reflexivity.
  simpl. rewrite Hk. simpl. reflexivity.
Qed.

(** Witness for C1: the pending result of [pendingWorld], accepted with
    comments "ok", the server answering with the held text. *)
Lemma C1_witness :
  messages (ui (step None
                  (step None pendingWorld
                     (Validation 2 MessageView.YesButton (js "ok")))
                  (Settle (length (inflight pendingWorld)) KValidation
                     (success echoedResult))))
  = messages (ui pendingWorld)
    ++ [Message.mk assistant (ValidationResponse.response echoedResult) None
          (Some (js "HUMAN_VALIDATED")) None].
Proof.
  exact (proj2 (proj2 (C1_validation_appends_one_entry None pendingWorld 2
           (reply heldResult) MessageView.YesButton (js "ok")
           (success echoedResult) eq_refl eq_refl))).
Defined.

(** ** The history only grows *)

Lemma AppendOnly_Tame (t : Task State unit) : AppendOnly t -> Tame t.
Proof. induction 1; constructor; auto. Qed.

Lemma AppendOnly_bind {A B} (t : Task State A) (f : A -> Task State B) :
  AppendOnly t -> (forall a, AppendOnly (f a)) -> AppendOnly (bind t f).
Proof. induction 1; intros Hf; simpl; try constructor; auto. Qed.

Lemma AppendOnly_try_catch {A} (t : Task State A) (h : JsError -> Task State A) :
  AppendOnly t -> (forall e, AppendOnly (h e)) -> AppendOnly (try_catch t h).
Proof. induction 1; intros Hh; simpl; try constructor; auto. Qed.

Lemma AppendOnly_try_finally {A} (t : Task State A) (fin : Task State unit) :
  AppendOnly t -> AppendOnly fin -> AppendOnly (try_finally t fin).
Proof.
  induction 1; intros Hfin; simpl.
  - apply AppendOnly_bind; [assumption | constructor].
  - apply AppendOnly_bind; [assumption | constructor].
  - constructor; auto.
  - constructor; auto.
Qed.

(** Setters that leave the messages alone, and appends. *)
Ltac keeps_messages :=
  constructor; [intros st; exists []; simpl; symmetry; apply app_nil_r
               | constructor].

Lemma AppendOnly_setInput v : AppendOnly (setInput v).
Proof. keeps_messages. Qed.

Lemma AppendOnly_setIsRecording v : AppendOnly (setIsRecording v).
Proof. keeps_messages. Qed.

Lemma AppendOnly_setIsProcessing v : AppendOnly (setIsProcessing v).
Proof. keeps_messages. Qed.

Lemma AppendOnly_setSelectedImage v : AppendOnly (setSelectedImage v).
Proof. keeps_messages. Qed.

Lemma AppendOnly_append (m : Message.t) :
  AppendOnly (setMessages (fun prev => prev ++ [m])).
Proof. constructor; [intros st; exists [m]; reflexivity | constructor]. Qed.

Lemma AppendOnly_fetch kd req : AppendOnly (@fetch State kd req).
Proof. constructor; intros [e|r]; constructor. Qed.

Lemma AppendOnly_read {T} (r : Response T) : AppendOnly (@read State T r).
Proof. unfold read; destruct (parsed r); constructor. Qed.

Create HintDb append_only.

#[local] Hint Resolve AppendOnly_setInput AppendOnly_setIsRecording
  AppendOnly_setIsProcessing AppendOnly_setSelectedImage AppendOnly_append
  AppendOnly_fetch AppendOnly_read : append_only.
#[local] Hint Constructors AppendOnly : append_only.

(** One step of the structural argument: split a compound task. *)
Ltac append_only_step :=
  match goal with
  | |- AppendOnly (mbind _ _) => unfold mbind, task_bind
  | |- AppendOnly (mret _) => unfold mret, task_ret
  | |- AppendOnly (bind _ _) => apply AppendOnly_bind; [|intros ?]
  | |- AppendOnly (try_catch _ _) => apply AppendOnly_try_catch; [|intros ?]
  | |- AppendOnly (try_finally _ _) => apply AppendOnly_try_finally
  | |- AppendOnly (fetch ?kd ?req) => exact (AppendOnly_fetch kd req)
  | |- AppendOnly (read ?r) => exact (AppendOnly_read r)
  | |- AppendOnly (if ?c then _ else _) => destruct c
  | |- AppendOnly (match ?c with _ => _ end) => destruct c
  | |- AppendOnly _ => solve [auto with append_only]
  end.

Ltac append_only := repeat append_only_step.

Section HistoryFacts.

Variable env : option jsstring.

Lemma AppendOnly_sendChatMessage m :
  AppendOnly (@Api.sendChatMessage env State m).
Proof. unfold Api.sendChatMessage. append_only. Qed.

Lemma AppendOnly_uploadImage image text :
  AppendOnly (@Api.uploadImage env State image text).
Proof. unfold Api.uploadImage. append_only. Qed.

Lemma AppendOnly_sendValidation v c :
  AppendOnly (@Api.sendValidation env State v c).
Proof. unfold Api.sendValidation. append_only. Qed.

Lemma AppendOnly_transcribeAudio audio language :
  AppendOnly (@Api.transcribeAudio env State audio language).
Proof. unfold Api.transcribeAudio. append_only. Qed.

#[local] Hint Resolve AppendOnly_sendChatMessage AppendOnly_uploadImage
  AppendOnly_sendValidation AppendOnly_transcribeAudio : append_only.

Lemma AppendOnly_handleSendMessage st : AppendOnly (handleSendMessage env st).
Proof. unfold handleSendMessage. append_only. Qed.

Lemma AppendOnly_handleValidation v c : AppendOnly (handleValidation env v c).
Proof. unfold handleValidation. append_only. Qed.

Lemma AppendOnly_handleImageUpload file dataUrl :
  AppendOnly (handleImageUpload file dataUrl).
Proof. unfold handleImageUpload. append_only. Qed.

Lemma AppendOnly_toggleRecording st granted audioChunks :
  AppendOnly (toggleRecording env st granted audioChunks).
Proof. unfold toggleRecording, onstop. append_only. Qed.

Lemma Tame_clearChat : Tame clearChat.
Proof. repeat constructor. Qed.

End HistoryFacts.

Section Reachable.

Variable env : option jsstring.

Lemma run_appends (t : Task State unit) (w : World) :
  AppendOnly t ->
  exists more, messages (ui (run t w)) = messages (ui w) ++ more.
Proof.
  intros H; revert w; induction H as [a|e|f k Hf _ IH|kd req k _ _]; intros w.
  - exists []; symmetry; apply app_nil_r.
  - exists []; symmetry; apply app_nil_r.
  - destruct (Hf (ui w)) as [more1 H1].
    destruct (IH {| ui := f (ui w); inflight := inflight w; sent := sent w |})
      as [more2 H2].
    exists (more1 ++ more2). simpl in *. rewrite H2, H1. symmetry; apply app_assoc.
  - exists []; symmetry; apply app_nil_r.
Qed.

Lemma run_sound (t : Task State unit) (w : World) :
  Tame t -> Sound w -> Sound (run t w).
Proof.
  intros H; revert w; induction H as [a|e|f k _ IH|kd req k Hk]; intros w Hw.
  - exact Hw.
  - exact Hw.
  - apply IH. exact Hw.
  - unfold Sound; simpl. apply Forall_app; split; [exact Hw|].
    constructor; [exact Hk | constructor].
Qed.

Lemma settle_AppendOnly (s : Suspended) kd (o : Outcome (payload kd)) t :
  (forall o', AppendOnly (resume s o')) ->
  settle s kd o = Some t -> AppendOnly t.
Proof.
  destruct s as [kd' req k]; unfold settle; simpl. intros Hs.
  destruct (Kind_eq_dec kd kd') as [e|_]; [|discriminate].
  destruct e; simpl. intros [= <-]. apply Hs.
Qed.

(** The task an event starts is tame, and append-only unless it is the
    explicit clear. *)
Lemma validation_click_AppendOnly (message : Message.t) comments b :
  AppendOnly (MessageView.onClick (onValidationFor env message) comments b).
Proof.
  unfold MessageView.onClick, MessageView.handleValidation, onValidationFor.
  destruct (MessageView.asksValidation message).
  - apply AppendOnly_handleValidation.
  - constructor.
Qed.

Lemma step_sound (w : World) (e : Event) : Sound w -> Sound (step env w e).
Proof.
  intros Hw. destruct e; unfold step.
  - apply run_sound; [apply AppendOnly_Tame, AppendOnly_handleSendMessage | exact Hw].
  - apply run_sound; [apply AppendOnly_Tame, AppendOnly_setInput | exact Hw].
  - apply run_sound; [apply AppendOnly_Tame, AppendOnly_handleImageUpload | exact Hw].
  - apply run_sound; [apply AppendOnly_Tame, AppendOnly_setSelectedImage | exact Hw].
  - destruct (messages (ui w) !! index) as [message|]; [|exact Hw].
    destruct (MessageView.rendersControls message (onValidationFor env message));
      [|exact Hw].
    apply run_sound; [apply AppendOnly_Tame, validation_click_AppendOnly | exact Hw].
  - apply run_sound; [apply AppendOnly_Tame, AppendOnly_toggleRecording | exact Hw].
  - apply run_sound; [apply Tame_clearChat | exact Hw].
  - destruct (inflight w !! n) as [s|] eqn:Hn; [|exact Hw].
    destruct (settle s kd o) as [t|] eqn:Ht; [|exact Hw].
    apply run_sound.
    + apply AppendOnly_Tame. eapply settle_AppendOnly; [|exact Ht].
      eapply (proj1 (Forall_lookup _ _) Hw); exact Hn.
    + unfold Sound; simpl. apply Forall_delete. exact Hw.
Qed.

Lemma step_appends (w : World) (e : Event) :
  Sound w -> e <> ClearChat ->
  exists more, messages (ui (step env w e)) = messages (ui w) ++ more.
Proof.
  intros Hw He. destruct e; unfold step.
  - apply run_appends, AppendOnly_handleSendMessage.
  - apply run_appends, AppendOnly_setInput.
  - apply run_appends, AppendOnly_handleImageUpload.
  - apply run_appends, AppendOnly_setSelectedImage.
  - destruct (messages (ui w) !! index) as [message|];
      [|exists []; symmetry; apply app_nil_r].
    destruct (MessageView.rendersControls message (onValidationFor env message));
      [|exists []; symmetry; apply app_nil_r].
    apply run_appends, validation_click_AppendOnly.
  - apply run_appends, AppendOnly_toggleRecording.
  - contradiction.
  - destruct (inflight w !! n) as [s|] eqn:Hn;
      [|exists []; symmetry; apply app_nil_r].
    destruct (settle s kd o) as [t|] eqn:Ht;
      [|exists []; symmetry; apply app_nil_r].
    apply (run_appends t
             {| ui := ui w; inflight := delete n (inflight w); sent := sent w |}).
    eapply settle_AppendOnly; [|exact Ht].
    eapply (proj1 (Forall_lookup _ _) Hw); exact Hn.
Qed.

Lemma steps_sound (es : list Event) (w : World) :
  Sound w -> Sound (steps env w es).
Proof.
  revert w; induction es as [|e es IH]; intros w Hw; simpl; [exact Hw|].
  apply IH, step_sound, Hw.
Qed.

Lemma steps_append (es : list Event) (w : World) :
  Sound w -> Forall (fun e => e <> ClearChat) es ->
  exists more, messages (ui (steps env w es)) = messages (ui w) ++ more.
Proof.
  revert w; induction es as [|e es IH]; intros w Hw Hes; simpl.
  - exists []; symmetry; apply app_nil_r.
  - inversion Hes as [|? ? He Hes']; subst.
    destruct (step_appends w e Hw He) as [more1 H1].
    destruct (IH (step env w e) (step_sound w e Hw) Hes') as [more2 H2].
    exists (more1 ++ more2). rewrite H2, H1. symmetry; apply app_assoc.
Qed.

Lemma start_sound : Sound start.
Proof. constructor. Qed.

End Reachable.

(** C5. In every state the component can reach, every event other than the
    explicit clear leaves the existing entries in place and at most appends
    to them; the clear replaces the history by the single clearing notice.
    A turn that passes the guard appends its user entry at once, so every
    entry appended later (its reply included) follows it; for a text-only
    turn the entry appended when its request settles is the assistant reply
    or, on failure, the system notice. *)
Theorem C5_history_is_append_only (env : option jsstring) (es : list Event) :
  let w := steps env start es in
  (forall e, e <> ClearChat ->
     exists more, messages (ui (step env w e)) = messages (ui w) ++ more)
  /\ messages (ui (step env w ClearChat)) = [cleared]
  /\ (sendBlocked (ui w) = false ->
      let newMessage :=
        Message.mk user (trim (input (ui w)))
          (if truthy_opt (selectedImage (ui w)) then selectedImage (ui w)
           else None)
          None None in
      let w1 := step env w SendMessage in
      messages (ui w1) = messages (ui w) ++ [newMessage]
      /\ (forall later, Forall (fun e => e <> ClearChat) later ->
            exists more,
              messages (ui (steps env w1 later))
              = messages (ui w) ++ [newMessage] ++ more)
      /\ (truthy_opt (selectedImage (ui w)) = false ->
          forall o : Outcome (payload KChat),
            messages (ui (step env w1 (Settle (length (inflight w)) KChat o)))
            = messages (ui w) ++
                [newMessage;
                 match delivered o with
                 | Some response => reply response
                 | None => requestFailed
                 end])).
Proof.
  intros w.
  assert (Hw : Sound w) by (apply steps_sound, start_sound).
  split; [intros e He; apply step_appends; assumption|].
  split; [reflexivity|].
  intros Hguard newMessage w1.
  assert (H1 : messages (ui w1) = messages (ui w) ++ [newMessage]).
  { subst w1 newMessage. unfold step, handleSendMessage. rewrite Hguard.
    destruct (selectedImage (ui w)) as [[|c dataUrl]|]; reflexivity. }
  split; [exact H1|]. split.
  - intros later Hlater.
    destruct (steps_append env later w1) as [more Hmore];
      [apply step_sound; exact Hw | exact Hlater |].
    exists more. rewrite Hmore, H1. symmetry; apply app_assoc.
  - intros Himage o.
    assert (Hw1 : exists k u,
      w1 = {| ui := u;
              inflight := inflight w ++
                [{| awaiting := KChat;
                    request := Api.chatRequest env (trim (input (ui w)));
                    resume := k |}];
              sent := sent w ++ [Api.chatRequest env (trim (input (ui w)))] |}
      /\ messages u = messages (ui w) ++ [newMessage]
      /\ forall o' v, messages (ui (run (k o') v))
           = messages (ui v) ++
               [match delivered o' with
                | Some response => reply response
                | None => requestFailed
                end]).
    { subst w1 newMessage. unfold step, handleSendMessage. rewrite Hguard.
      destruct (selectedImage (ui w)) as [[|c dataUrl]|];
        simpl in Himage; try discriminate.
      - eexists; eexists; split; [reflexivity|]. split; [reflexivity|].
        intros [e|[[] code body [r|]]] v; reflexivity.
      - eexists; eexists; split; [reflexivity|]. split; [reflexivity|].
        intros [e|[[] code body [r|]]] v; reflexivity. }
    destruct Hw1 as (k & u & Hw1 & Hu & Hk).
    rewrite Hw1. unfold step. simpl inflight.
    rewrite list_lookup_middle by reflexivity.
    simpl. rewrite Hk. simpl. rewrite Hu.
    rewrite <- app_assoc. reflexivity.
Qed.

(** ** Calls in flight *)

(** C4 fails on the client.  [handleSendMessage] is refused while
    [isProcessing] is set, but [handleValidation] never reads the flag: in
    the trace above the chat call and the validation call are in flight
    together; the validation's [finally] clears the flag while the chat
    call is still pending, which lets a third call start; and the entries
    of the calls interleave in the history (question, validation entry,
    next question, answer to the first question). *)
Theorem C4_calls_overlap_on_the_client :
  let w1 := steps None pendingWorld overlappingCalls in
  let w2 := steps None w1 overlappingReplies in
  isProcessing (ui (steps None pendingWorld
                      [ChangeInput (js "what is a glioma?"); SendMessage]))
  = true
  /\ map awaiting (inflight w1) = [KChat; KValidation]
  /\ map (fun r => url r) (sent w1)
     = [js "http://localhost:8000/api/chat";
        js "http://localhost:8000/api/chat";
        js "http://localhost:8000/api/validate"]
  /\ isProcessing (ui (step None w1 (Settle 1 KValidation (success confirmation))))
     = false
  /\ map awaiting
       (inflight (steps None w1
          [Settle 1 KValidation (success confirmation);
           ChangeInput (js "and a meningioma?"); SendMessage]))
     = [KChat; KChat]
  /\ map (fun m => (Message.role m, Message.content m, Message.agent m))
       (messages (ui w2))
     = map (fun m => (Message.role m, Message.content m, Message.agent m))
         (messages (ui pendingWorld))
       ++ [(user, js "what is a glioma?", None);
           (assistant, js "Confirmed.", Some (js "HUMAN_VALIDATED"));
           (user, js "and a meningioma?", None);
           (assistant, js "A glioma is a tumour of glial cells.",
            Some (js "RAG_AGENT"))].
Proof.
  repeat split; vm_compute; reflexivity.
Qed.

(** ** The validation gate of the orchestrator *)

Section GateFacts.

Import Orchestrator.

Variable decodable : Image -> bool.
Variable detectModality : Image -> option Modality.
Variables seeksKnowledge needsExternal : Text -> bool.
Variable infer : Modality -> Image -> Inference.
Variable threshold : Q.
Variables finding lowConfidenceFinding : Modality -> Text -> Q -> Text.
Variable couldNotAnalyze : Modality -> Text.
Variable dialogue : AgentId -> TurnInput -> list Turn -> AgentResult.

Local Abbreviation route := (Orchestrator.route detectModality seeksKnowledge needsExternal).
Local Abbreviation handle :=
  (Orchestrator.handle decodable infer threshold finding lowConfidenceFinding
     couldNotAnalyze dialogue).
Local Abbreviation malformed := (Orchestrator.malformed decodable).
Local Abbreviation turn :=
  (Orchestrator.turn decodable detectModality seeksKnowledge needsExternal
     infer threshold finding lowConfidenceFinding couldNotAnalyze dialogue).
Local Abbreviation processTurn :=
  (Orchestrator.processTurn decodable detectModality seeksKnowledge
     needsExternal infer threshold finding lowConfidenceFinding
     couldNotAnalyze dialogue).

Lemma visionHandle_requiresValidation (m : Modality) input context :
  requiresValidation
    (visionHandle decodable infer threshold finding lowConfidenceFinding
       couldNotAnalyze m input context) = Some true.
Proof.
  unfold visionHandle.
  destruct (upload input) as [img|]; [|reflexivity].
  destruct (decodable img); simpl; [|reflexivity].
  destruct (score (infer m img)) as [|q]; [reflexivity|].
  destruct (Qle_bool 0 q && Qle_bool q 1); reflexivity.
Qed.

Lemma turn_pending (s : Session) input now :
  gate s = PENDING -> turn s input now = (Refused ValidationPendingError, s).
Proof. intros H. unfold Orchestrator.turn. rewrite H. reflexivity. Qed.

(** C2. A session whose gate is [PENDING] rejects every [processTurn] call
    with [ValidationPendingError], whatever the turn carries, and leaves the
    store as it was; no other error can come back from such a call. *)
Theorem C2_pending_session_rejects_every_turn
    (store : gmap string Session) (sessionId : string) (s : Session)
    (input : TurnInput) (now : Timestamp) :
  store !! sessionId = Some s ->
  gate s = PENDING ->
  processTurn store sessionId input now
  = (Refused ValidationPendingError, store)
  /\ forall err,
       fst (processTurn store sessionId input now) = Refused err ->
       err = ValidationPendingError.
Proof.
  intros Hs Hgate.
  assert (H : processTurn store sessionId input now
              = (Refused ValidationPendingError, store)).
  { unfold Orchestrator.processTurn. rewrite Hs. simpl.
    rewrite (turn_pending s input now Hgate).
    f_equal. apply insert_id. exact Hs. }
  split; [exact H|].
  intros err Herr. rewrite H in Herr. simpl in Herr. congruence.
Qed.

(** C3. Whatever the input and the answer of the inference back-end, the
    result of each of the three vision agents has [requiresValidation] set;
    so a turn that the router gives to a vision agent is never appended to
    the history as final: the result is held, the envelope is marked
    [PENDING_VALIDATION] and the session's gate is [PENDING]. *)
Theorem C3_vision_results_require_validation :
  (forall a input context,
     a = BrainTumor \/ a = ChestXray \/ a = SkinLesion ->
     requiresValidation (handle a input context) = Some true)
  /\ (forall (s : Session) input now,
        gate s = NONE ->
        malformed input = false ->
        let a := selected (route input (history s)) in
        a = BrainTumor \/ a = ChestXray \/ a = SkinLesion ->
        let r := handle a input (history s) in
        turn s input now
        = (Answered (envelope r PENDING_VALIDATION),
           {| history := history s ++ [userTurn input];
              pending := Some {| held := r; producer := agent r;
                                 created := now |} |})
        /\ gate (snd (turn s input now)) = PENDING).
Proof.
  assert (Hvision : forall a input context,
            a = BrainTumor \/ a = ChestXray \/ a = SkinLesion ->
            requiresValidation (handle a input context) = Some true).
  { intros a input context [ -> | [ -> | -> ] ]; unfold Orchestrator.handle; simpl;
      apply visionHandle_requiresValidation. }
  split; [exact Hvision|].
  intros s input now Hgate Hmal a Ha r.
  assert (Hturn : turn s input now
     = (Answered (envelope r PENDING_VALIDATION),
        {| history := history s ++ [userTurn input];
           pending := Some {| held := r; producer := agent r;
                              created := now |} |})).
  { unfold Orchestrator.turn. rewrite Hgate, Hmal.
    fold a. fold r. unfold r at 1. rewrite (Hvision a input (history s) Ha).
    reflexivity. }
  split; [exact Hturn|]. rewrite Hturn. reflexivity.
Qed.

End GateFacts.

(** Witness for C2: the session left pending by scenario B rejects a
    following text turn. *)
Lemma C2_witness :
  let store : gmap string Orchestrator.Session :=
    <["alice" := Deployment.afterChestXray]> ∅ in
  Deployment.processTurn store "alice"
    {| Orchestrator.text := js "hello"; Orchestrator.upload := None |} 5
  = (Orchestrator.Refused Orchestrator.ValidationPendingError, store).
Proof.
  intros store.
  exact (proj1 (C2_pending_session_rejects_every_turn
                  Deployment.decodable Deployment.detectModality
                  Deployment.seeksKnowledge Deployment.needsExternal
                  Deployment.infer Deployment.threshold Deployment.finding
                  Deployment.lowConfidenceFinding Deployment.couldNotAnalyze
                  Deployment.dialogue store "alice" Deployment.afterChestXray
                  {| Orchestrator.text := js "hello";
                     Orchestrator.upload := None |} 5
                  (lookup_insert_eq ∅ "alice" Deployment.afterChestXray)
                  eq_refl)).
Defined.

(** Witness for C3: scenario B leaves the new session pending. *)
Lemma C3_witness :
  Orchestrator.gate
    (snd (Deployment.turn Orchestrator.newSession Deployment.chestXray 0))
  = Orchestrator.PENDING.
Proof.
  exact (proj2 (proj2 (C3_vision_results_require_validation
                  Deployment.decodable Deployment.detectModality
                  Deployment.seeksKnowledge Deployment.needsExternal
                  Deployment.infer Deployment.threshold Deployment.finding
                  Deployment.lowConfidenceFinding Deployment.couldNotAnalyze
                  Deployment.dialogue)
                Orchestrator.newSession Deployment.chestXray 0
                eq_refl eq_refl (or_intror (or_introl eq_refl)))).
Defined.

(** ** Further facts about the client *)

(** X1. A displayed result that awaits validation does not hold back new
    turns on the client: whenever the guard of [handleSendMessage] passes
    (it reads only the input, the selected image and [isProcessing]), the
    user entry is appended and a request is issued. *)
Theorem X1_send_ignores_pending_validation
    (env : option jsstring) (w : World) (index : nat) (message : Message.t) :
  messages (ui w) !! index = Some message ->
  MessageView.asksValidation message = true ->
  sendBlocked (ui w) = false ->
  messages (ui (step env w SendMessage))
  = messages (ui w) ++
      [Message.mk user (trim (input (ui w)))
         (if truthy_opt (selectedImage (ui w)) then selectedImage (ui w)
          else None)
         None None]
  /\ length (sent (step env w SendMessage)) = Datatypes.S (length (sent w))
  /\ isProcessing (ui (step env w SendMessage)) = true.
Proof.
  intros _ _ Hguard. unfold step, handleSendMessage. rewrite Hguard.
  destruct (selectedImage (ui w)) as [[|c dataUrl]|]; simpl;
    rewrite length_app; simpl; repeat split; lia.
Qed.

(** Witness for X1: a question typed while the result of [pendingWorld]
    awaits validation. *)
Lemma X1_witness :
  let w := step None pendingWorld (ChangeInput (js "what is a glioma?")) in
  messages (ui (step None w SendMessage))
  = messages (ui w) ++
      [Message.mk user (trim (input (ui w)))
         (if truthy_opt (selectedImage (ui w)) then selectedImage (ui w)
          else None)
         None None].
Proof.
  exact (proj1 (X1_send_ignores_pending_validation None
                  (step None pendingWorld (ChangeInput (js "what is a glioma?")))
                  2 (reply heldResult) eq_refl eq_refl eq_refl)).
Defined.

(** X2. A turn with an image first reads the data URL and then, with the
    blob it obtained, posts to [<API base>/api/upload] a form with the
    fields [image] (the file "image.jpg" made of that blob) and [text] (the
    trimmed input). *)
Theorem X2_image_turn_uploads_form
    (env : option jsstring) (w : World) (dataUrl : jsstring)
    (okay : bool) (code : N) (body : jsstring) (imageFile : Blob) :
  selectedImage (ui w) = Some dataUrl ->
  truthy dataUrl = true ->
  isProcessing (ui w) = false ->
  let w1 := step env w SendMessage in
  let w2 :=
    step env w1
      (Settle (length (inflight w)) KBlob
         (Responded {| ok := okay; status := code; text := body;
                       parsed := Some imageFile |})) in
  sent w1
  = sent w ++ [{| url := dataUrl; method := GET; headers := []; body := None;
                  credentials := None |}]
  /\ sent w2
     = sent w1 ++
         [{| url := Api.API_BASE_URL env ++ js "/api/upload";
             method := POST;
             headers := [];
             body := Some (FormBody
                       [(js "image",
                         FormFile {| file_bits := [imageFile];
                                     file_name := js "image.jpg" |});
                        (js "text", FormString (trim (input (ui w))))]);
             credentials := Some Include |}].
Proof.
  intros Himage Htruthy Hbusy w1 w2.
  assert (Hguard : sendBlocked (ui w) = false).
  { unfold sendBlocked. rewrite Himage, Hbusy. simpl. rewrite Htruthy.
    destruct (truthy (trim (input (ui w)))); reflexivity. }
  assert (Hw1 : exists k u,
    w1 = {| ui := u;
            inflight := inflight w ++
              [{| awaiting := KBlob; request := dataUrlRequest dataUrl;
                  resume := k |}];
            sent := sent w ++ [dataUrlRequest dataUrl] |}
    /\ forall v,
         sent (run (k (Responded {| ok := okay; status := code; text := body;
                                    parsed := Some imageFile |})) v)
         = sent v ++
             [Api.uploadRequest env
                {| file_bits := [imageFile]; file_name := js "image.jpg" |}
                (trim (input (ui w)))]).
  { subst w1. unfold step, handleSendMessage. rewrite Hguard, Himage, Htruthy.
    eexists; eexists; split; [reflexivity|]. intros v; reflexivity. }
  destruct Hw1 as (k & u & Hw1 & Hk).
  split; [rewrite Hw1; reflexivity|].
  subst w2. rewrite Hw1. unfold step. simpl inflight.
  rewrite list_lookup_middle by reflexivity.
  simpl. rewrite Hk. reflexivity.
Qed.

(** Witness for X2: a picked image and a caption on the greeting screen. *)
Lemma X2_witness :
  let w :=
    steps None start
      [ImageUpload (Some {| file_bits := []; file_name := js "scan.png" |})
         (js "data:image/png;base64,AAAA");
       ChangeInput (js " my scan ")] in
  sent (step None w SendMessage)
  = sent w ++ [{| url := js "data:image/png;base64,AAAA"; method := GET;
                  headers := []; body := None; credentials := None |}].
Proof.
  exact (proj1 (X2_image_turn_uploads_form None
                  (steps None start
                     [ImageUpload
                        (Some {| file_bits := []; file_name := js "scan.png" |})
                        (js "data:image/png;base64,AAAA");
                      ChangeInput (js " my scan ")])
                  (js "data:image/png;base64,AAAA") true 200 []
                  {| blob_bytes := [137; 80; 78; 71]; blob_type := js "image/png" |}
                  eq_refl eq_refl eq_refl)).
Defined.

(** X3. [transcribeAudio] posts to [<API base>/api/transcribe] a form with
    the fields [audio] and [language] (["vi-VN"] unless given), without
    credentials, and returns the transcript object of a successful
    response. *)
Theorem X3_transcribe_request
    (env : option jsstring) (S : Type) (audio : Blob)
    (language : option jsstring) :
  exists k,
    @Api.transcribeAudio env S audio language
    = Await KTranscript
        {| url := Api.API_BASE_URL env ++ js "/api/transcribe";
           method := POST;
           headers := [];
           body := Some (FormBody
                     [(js "audio", FormBlob audio);
                      (js "language",
                       FormString (match language with
                                   | Some l => l
                                   | None => js "vi-VN"
                                   end))]);
           credentials := None |}
        k
    /\ forall code body (t : Transcript),
         k (Responded {| ok := true; status := code; text := body;
                         parsed := Some t |}) = Ret t.
Proof.
  destruct language as [l|]; (eexists; split; [reflexivity|]);
    intros code body t; reflexivity.
Qed.

(** ** Complete turns *)

Section Turns.

Variable env : option jsstring.

(** What a text-only turn does up to its [await], and after it. *)
Lemma send_text_started (w : World) :
  sendBlocked (ui w) = false ->
  truthy_opt (selectedImage (ui w)) = false ->
  exists k,
    step env w SendMessage
    = {| ui := {| messages := messages (ui w) ++
                    [Message.mk user (trim (input (ui w))) None None None];
                  input := js ""; isRecording := isRecording (ui w);
                  isProcessing := true; selectedImage := None |};
         inflight := inflight w ++
           [{| awaiting := KChat;
               request := Api.chatRequest env (trim (input (ui w)));
               resume := k |}];
         sent := sent w ++ [Api.chatRequest env (trim (input (ui w)))] |}
    /\ forall o v,
         run (k o) v
         = {| ui := finished (ui v) (chatEntry o);
              inflight := inflight v; sent := sent v |}.
Proof.
  intros Hguard Himage. unfold step, handleSendMessage. rewrite Hguard.
  destruct (selectedImage (ui w)) as [[|c dataUrl]|];
    simpl in Himage; try discriminate.
  - eexists; split; [reflexivity|].
    intros [e|[[] code body [r|]]] v; reflexivity.
  - eexists; split; [reflexivity|].
    intros [e|[[] code body [r|]]] v; reflexivity.
Qed.

Lemma settle_last (w : World) (s : Suspended) u sent' kd
    (o : Outcome (payload kd)) t :
  settle s kd o = Some t ->
  step env {| ui := u; inflight := inflight w ++ [s]; sent := sent' |}
    (Settle (length (inflight w)) kd o)
  = run t {| ui := u; inflight := inflight w; sent := sent' |}.
Proof.
  intros Ht. unfold step. simpl inflight.
  rewrite list_lookup_middle by reflexivity. rewrite Ht.
  simpl ui. simpl sent.
  rewrite (delete_middle (inflight w) [] s), app_nil_r. reflexivity.
Qed.

(** X4. A text-only turn that passes the guard, once its request has
    settled, has appended exactly two entries (the user's, then the
    assistant's reply or, on any failure, the system notice), has emptied
    the input, and has set [isProcessing] back to false; nothing is left
    in flight from it. *)
Theorem X4_text_turn_completes (w : World) (o : Outcome (payload KChat)) :
  sendBlocked (ui w) = false ->
  truthy_opt (selectedImage (ui w)) = false ->
  steps env w [SendMessage; Settle (length (inflight w)) KChat o]
  = {| ui := {| messages := messages (ui w) ++
                  [Message.mk user (trim (input (ui w))) None None None;
                   match delivered o with
                   | Some response => reply response
                   | None => requestFailed
                   end];
                input := js ""; isRecording := isRecording (ui w);
                isProcessing := false; selectedImage := None |};
       inflight := inflight w;
       sent := sent w ++ [Api.chatRequest env (trim (input (ui w)))] |}.
Proof.
  intros Hguard Himage.
  destruct (send_text_started w Hguard Himage) as (k & Hw1 & Hk).
  unfold steps; cbn [foldl]. rewrite Hw1.
  rewrite (settle_last w _ _ _ KChat o (k o)) by reflexivity.
  rewrite Hk. unfold finished, chatEntry; simpl.
  rewrite <- app_assoc. reflexivity.
Qed.

(** X6. Clearing the chat while a text-only turn is processing does not
    cancel the turn: when its request settles, the reply (or the failure
    notice) is appended to the cleared history, right after the clearing
    notice, and [isProcessing] goes back to false. *)
Theorem X6_reply_after_clear (w : World) (o : Outcome (payload KChat)) :
  sendBlocked (ui w) = false ->
  truthy_opt (selectedImage (ui w)) = false ->
  let w3 :=
    steps env w [SendMessage; ClearChat;
                 Settle (length (inflight w)) KChat o] in
  messages (ui w3)
  = [cleared;
     match delivered o with
     | Some response => reply response
     | None => requestFailed
     end]
  /\ isProcessing (ui w3) = false
  /\ inflight w3 = inflight w.
Proof.
  intros Hguard Himage w3.
  destruct (send_text_started w Hguard Himage) as (k & Hw1 & Hk).
  assert (Hw3 : w3 = {| ui := finished (ui (run clearChat (step env w SendMessage)))
                                (chatEntry o);
                        inflight := inflight w;
                        sent := sent (step env w SendMessage) |}).
  { subst w3. unfold steps; cbn [foldl]. rewrite Hw1.
    unfold step at 2. simpl run.
    rewrite (settle_last w _ _ _ KChat o (k o)) by reflexivity.
    rewrite Hk. reflexivity. }
  rewrite Hw3. repeat split.
Qed.

End Turns.

Section ImageTurns.

Variable env : option jsstring.

(** What an image turn does up to its first [await], and after it. *)
Lemma send_image_started (w : World) (dataUrl : jsstring) :
  selectedImage (ui w) = Some dataUrl ->
  truthy dataUrl = true ->
  isProcessing (ui w) = false ->
  exists k,
    step env w SendMessage
    = {| ui := {| messages := messages (ui w) ++
                    [Message.mk user (trim (input (ui w))) (Some dataUrl)
                       None None];
                  input := js ""; isRecording := isRecording (ui w);
                  isProcessing := true; selectedImage := None |};
         inflight := inflight w ++
           [{| awaiting := KBlob; request := dataUrlRequest dataUrl;
               resume := k |}];
         sent := sent w ++ [dataUrlRequest dataUrl] |}
    /\ (forall ob v,
          match ob with Responded r => parsed r | Rejected _ => None end = None ->
          run (k ob) v
          = {| ui := finished (ui v) requestFailed;
               inflight := inflight v; sent := sent v |})
    /\ (forall ob imageFile v,
          match ob with Responded r => parsed r | Rejected _ => None end
          = Some imageFile ->
          let upload :=
            Api.uploadRequest env
              {| file_bits := [imageFile]; file_name := js "image.jpg" |}
              (trim (input (ui w))) in
          exists k2,
            run (k ob) v
            = {| ui := ui v;
                 inflight := inflight v ++
                   [{| awaiting := KChat; request := upload; resume := k2 |}];
                 sent := sent v ++ [upload] |}
            /\ forall ou v',
                 run (k2 ou) v'
                 = {| ui := finished (ui v')
                              match delivered ou with
                              | Some data => reply (Api.fullResultImage env data)
                              | None => requestFailed
                              end;
                      inflight := inflight v'; sent := sent v' |}).
Proof.
  intros Himage Htruthy Hbusy.
  assert (Hguard : sendBlocked (ui w) = false).
  { unfold sendBlocked. rewrite Himage, Hbusy. simpl. rewrite Htruthy.
    destruct (truthy (trim (input (ui w)))); reflexivity. }
  unfold step, handleSendMessage. rewrite Hguard, Himage.
  simpl truthy_opt. rewrite Htruthy.
  eexists; split; [reflexivity|]. split.
  - intros [e|[okb code body [b|]]] v Hb; simpl in Hb; try discriminate;
      reflexivity.
  - intros [e|[okb code body [b|]]] imageFile v Hb; simpl in Hb;
      try discriminate. injection Hb as ->.
    eexists; split; [reflexivity|].
    intros [e|[[] code' body' [r|]]] v'; reflexivity.
Qed.

(** X5. A turn with an image, once all its requests have settled, has
    appended exactly two entries: the user's (with the image) and then
    either the assistant's reply, whose [result_image] went through the
    fix-up of [uploadImage], or the system notice.  The notice is what a
    failed read of the data URL, a failed upload, an error status or an
    unreadable body all end in; [isProcessing] is false afterwards and
    nothing is left in flight from the turn.  The status of the data URL
    response is not looked at. *)
Theorem X5_image_turn_completes (w : World) (dataUrl : jsstring)
    (ob : Outcome (payload KBlob)) (ou : Outcome (payload KChat)) :
  selectedImage (ui w) = Some dataUrl ->
  truthy dataUrl = true ->
  isProcessing (ui w) = false ->
  let userEntry :=
    Message.mk user (trim (input (ui w))) (Some dataUrl) None None in
  let n := length (inflight w) in
  let settled (entry : Message.t) (requests : list Request) : World :=
    {| ui := {| messages := messages (ui w) ++ [userEntry; entry];
                input := js ""; isRecording := isRecording (ui w);
                isProcessing := false; selectedImage := None |};
       inflight := inflight w;
       sent := sent w ++ requests |} in
  match match ob with Responded r => parsed r | Rejected _ => None end with
  | None =>
      steps env w [SendMessage; Settle n KBlob ob]
      = settled requestFailed [dataUrlRequest dataUrl]
  | Some imageFile =>
      steps env w [SendMessage; Settle n KBlob ob; Settle n KChat ou]
      = settled
          match delivered ou with
          | Some data => reply (Api.fullResultImage env data)
          | None => requestFailed
          end
          [dataUrlRequest dataUrl;
           Api.uploadRequest env
             {| file_bits := [imageFile]; file_name := js "image.jpg" |}
             (trim (input (ui w)))]
  end.
Proof.
  intros Himage Htruthy Hbusy userEntry n settled.
  destruct (send_image_started w dataUrl Himage Htruthy Hbusy)
    as (k & Hw1 & Hnone & Hsome).
  destruct (match ob with Responded r => parsed r | Rejected _ => None end)
    as [imageFile|] eqn:Hb.
  - unfold steps; cbn [foldl]. rewrite Hw1.
    subst n. rewrite (settle_last env w _ _ _ KBlob ob (k ob)) by reflexivity.
    destruct (Hsome ob imageFile
                {| ui := {| messages := messages (ui w) ++ [userEntry];
                            input := js ""; isRecording := isRecording (ui w);
                            isProcessing := true; selectedImage := None |};
                   inflight := inflight w;
                   sent := sent w ++ [dataUrlRequest dataUrl] |} Hb)
      as (k2 & Hrun & Hk2).
    subst userEntry. rewrite Hrun. simpl inflight. simpl ui. simpl sent.
    rewrite (settle_last env w _ _ _ KChat ou (k2 ou)) by reflexivity.
    rewrite Hk2. subst settled. unfold finished. simpl.
    rewrite <- !app_assoc. reflexivity.
  - unfold steps; cbn [foldl]. rewrite Hw1.
    subst n. rewrite (settle_last env w _ _ _ KBlob ob (k ob)) by reflexivity.
    rewrite (Hnone ob _ Hb). subst settled userEntry. unfold finished. simpl.
    rewrite <- !app_assoc. reflexivity.
Qed.

End ImageTurns.

(** Witness for X4: the question of [askedWorld] answered with status 500. *)
Lemma X4_witness :
  isProcessing
    (ui (steps None askedWorld
           [SendMessage;
            Settle (length (inflight askedWorld)) KChat (failure 500)]))
  = false.
Proof.
  rewrite (X4_text_turn_completes None askedWorld (failure 500)
             eq_refl eq_refl).
  reflexivity.
Defined.

(** Witness for X5: the data URL of [pickedWorld] cannot be read. *)
Lemma X5_witness :
  isProcessing
    (ui (steps None pickedWorld
           [SendMessage;
            Settle (length (inflight pickedWorld)) KBlob (Rejected FetchFailed)]))
  = false.
Proof.
  pose proof (X5_image_turn_completes None pickedWorld
                (js "data:image/png;base64,AAAA") (Rejected FetchFailed)
                (failure 500) eq_refl eq_refl eq_refl) as H.
  cbv beta iota zeta in H. rewrite H. reflexivity.
Defined.

(** Witness for X6: the chat is cleared before the answer to the question
    of [askedWorld] arrives. *)
Lemma X6_witness :
  messages
    (ui (steps None askedWorld
           [SendMessage; ClearChat;
            Settle (length (inflight askedWorld)) KChat (success heldResult)]))
  = [cleared; reply heldResult].
Proof.
  exact (proj1 (X6_reply_after_clear None askedWorld (success heldResult)
                  eq_refl eq_refl)).
Defined.

(** ** Validation prompts and recordings *)

Section Prompts.

Variable env : option jsstring.

(** What a click on a rendered validation button does, and what the
    suspended handler does once its request has settled. *)
Lemma validation_started (w : World) (index : nat) (message : Message.t)
    (b : MessageView.Button) (comments : jsstring) :
  messages (ui w) !! index = Some message ->
  MessageView.asksValidation message = true ->
  exists k,
    step env w (Validation index b comments)
    = {| ui := {| messages := messages (ui w); input := input (ui w);
                  isRecording := isRecording (ui w); isProcessing := true;
                  selectedImage := selectedImage (ui w) |};
         inflight := inflight w ++
           [{| awaiting := KValidation;
               request := Api.validationRequest env
                            (MessageView.buttonValue b) comments;
               resume := k |}];
         sent := sent w ++
           [Api.validationRequest env (MessageView.buttonValue b) comments] |}
    /\ forall o v,
         run (k o) v
         = {| ui := finished (ui v)
                      match delivered o with
                      | Some r => validated r
                      | None => validationFailed
                      end;
              inflight := inflight v; sent := sent v |}.
Proof.
  intros Hlookup Hasks. unfold step. rewrite Hlookup.
  unfold MessageView.rendersControls, onValidationFor. rewrite Hasks.
  eexists; split; [reflexivity|].
  intros [e|[[] code body [r|]]] v; reflexivity.
Qed.

(** X7. Answering a validation prompt does not retire it.  After the
    validation has settled, whatever its outcome, the message is still at
    its place and still carries the buttons, so a further click posts a
    further [/api/validate] request; the entry the validation appended
    never carries buttons itself. *)
Theorem X7_prompt_outlives_validation
    (w : World) (index : nat) (message : Message.t)
    (b b' : MessageView.Button) (comments comments' : jsstring)
    (o : Outcome (payload KValidation)) :
  messages (ui w) !! index = Some message ->
  MessageView.asksValidation message = true ->
  let w2 :=
    steps env w [Validation index b comments;
                 Settle (length (inflight w)) KValidation o] in
  messages (ui w2) !! index = Some message
  /\ (forall entry, last (messages (ui w2)) = Some entry ->
        MessageView.asksValidation entry = false)
  /\ sent (step env w2 (Validation index b' comments'))
     = sent w2 ++
         [Api.validationRequest env (MessageView.buttonValue b') comments'].
Proof.
  intros Hlookup Hasks w2.
  destruct (validation_started w index message b comments Hlookup Hasks)
    as (k & Hw1 & Hk).
  assert (Hw2 : w2
    = {| ui := finished
                 {| messages := messages (ui w); input := input (ui w);
                    isRecording := isRecording (ui w); isProcessing := true;
                    selectedImage := selectedImage (ui w) |}
                 match delivered o with
                 | Some r => validated r
                 | None => validationFailed
                 end;
         inflight := inflight w;
         sent := sent w ++
           [Api.validationRequest env (MessageView.buttonValue b) comments] |}).
  { subst w2. unfold steps; cbn [foldl]. rewrite Hw1.
    rewrite (settle_last env w _ _ _ KValidation o (k o)) by reflexivity.
    rewrite Hk. reflexivity. }
  assert (Hstill : messages (ui w2) !! index = Some message).
  { rewrite Hw2. simpl. apply lookup_app_l_Some. exact Hlookup. }
  split; [exact Hstill|]. split.
  - intros entry. rewrite Hw2. simpl. rewrite last_snoc. intros [= <-].
    destruct o as [e|[[] code body [r|]]]; reflexivity.
  - destruct (validation_started w2 index message b' comments' Hstill Hasks)
      as (k' & Hw3 & _).
    rewrite Hw3. reflexivity.
Qed.

(** X8. Starting a recording only raises [isRecording], and only if the
    microphone was granted.  Stopping one lowers the flag and posts the
    recorded audio (type audio/webm, language vi-VN) to
    [<API base>/api/transcribe]; when that request settles the input
    becomes the transcript if the request succeeded and stays as it is
    otherwise.  The history is not touched either way. *)
Theorem X8_recording_fills_the_input
    (w : World) (granted : bool) (audioChunks : list Blob)
    (o : Outcome (payload KTranscript)) :
  (isRecording (ui w) = false ->
   step env w (ToggleRecording granted audioChunks)
   = {| ui := {| messages := messages (ui w); input := input (ui w);
                 isRecording := granted; isProcessing := isProcessing (ui w);
                 selectedImage := selectedImage (ui w) |};
        inflight := inflight w; sent := sent w |})
  /\ (isRecording (ui w) = true ->
      steps env w [ToggleRecording granted audioChunks;
                   Settle (length (inflight w)) KTranscript o]
      = {| ui := {| messages := messages (ui w);
                    input := match delivered o with
                             | Some result => transcript result
                             | None => input (ui w)
                             end;
                    isRecording := false;
                    isProcessing := isProcessing (ui w);
                    selectedImage := selectedImage (ui w) |};
           inflight := inflight w;
           sent := sent w ++
             [{| url := Api.API_BASE_URL env ++ js "/api/transcribe";
                 method := POST;
                 headers := [];
                 body := Some (FormBody
                   [(js "audio",
                     FormBlob {| blob_bytes := concat (map blob_bytes audioChunks);
                                 blob_type := js "audio/webm" |});
                    (js "language", FormString (js "vi-VN"))]);
                 credentials := None |}] |}).
Proof.
  split; intros Hrec.
  - unfold step, toggleRecording. rewrite Hrec.
    destruct granted; simpl.
    + reflexivity.
    + destruct w as [[ms i r p sel] fl snt]; simpl in *. subst r. reflexivity.
  - assert (Hw1 : exists k,
      step env w (ToggleRecording granted audioChunks)
      = {| ui := {| messages := messages (ui w); input := input (ui w);
                    isRecording := false; isProcessing := isProcessing (ui w);
                    selectedImage := selectedImage (ui w) |};
           inflight := inflight w ++
             [{| awaiting := KTranscript;
                 request := Api.transcribeRequest env (recording audioChunks)
                              (js "vi-VN");
                 resume := k |}];
           sent := sent w ++
             [Api.transcribeRequest env (recording audioChunks) (js "vi-VN")] |}
      /\ forall v,
           run (k o) v
           = {| ui := {| messages := messages (ui v);
                         input := match delivered o with
                                  | Some result => transcript result
                                  | None => input (ui v)
                                  end;
                         isRecording := isRecording (ui v);
                         isProcessing := isProcessing (ui v);
                         selectedImage := selectedImage (ui v) |};
                inflight := inflight v; sent := sent v |}).
    { unfold step, toggleRecording. rewrite Hrec.
      eexists; split; [reflexivity|].
      destruct o as [e|[[] code body [r|]]]; intros [[ms i r' p sel] fl snt];
        reflexivity. }
    destruct Hw1 as (k & Hw1 & Hk).
    unfold steps; cbn [foldl]. rewrite Hw1.
    rewrite (settle_last env w _ _ _ KTranscript o (k o)) by reflexivity.
    rewrite Hk. reflexivity.
Qed.

End Prompts.

(** Witness for X7: the prompt of [pendingWorld], accepted and answered. *)
Lemma X7_witness :
  messages
    (ui (steps None pendingWorld
           [Validation 2 MessageView.YesButton (js "ok");
            Settle (length (inflight pendingWorld)) KValidation
              (success echoedResult)])) !! 2%nat
  = Some (reply heldResult).
Proof.
  exact (proj1 (X7_prompt_outlives_validation None pendingWorld 2
                  (reply heldResult) MessageView.YesButton
                  MessageView.NoButton (js "ok") (js "") (success echoedResult)
                  eq_refl eq_refl)).
Defined.

(** ** The Send button and the text it sends *)

Lemma trimStart_suffix (s : jsstring) :
  exists blanks, s = blanks ++ trimStart s.
Proof.
  induction s as [|c s [blanks IH]]; [exists []; reflexivity|].
  simpl. destruct (isWhiteSpace c).
  - exists (c :: blanks). simpl. f_equal. exact IH.
  - exists []. reflexivity.
Qed.

Lemma trimStart_startsClean (s : jsstring) : startsClean (trimStart s).
Proof.
  induction s as [|c s IH]; [intros c Hc; discriminate|].
  simpl. destruct (isWhiteSpace c) eqn:Hws; [exact IH|].
  intros d [= <-]. exact Hws.
Qed.

Lemma startsClean_trimStart (s : jsstring) : startsClean s -> trimStart s = s.
Proof.
  destruct s as [|c s]; [reflexivity|]. intros H. simpl.
  rewrite (H c eq_refl). reflexivity.
Qed.

Lemma trim_startsClean (s : jsstring) : startsClean (trim s).
Proof.
  unfold trim, trimEnd.
  destruct (trimStart_suffix (rev (trimStart s))) as [blanks Hsplit].
  pose proof (trimStart_startsClean s) as Hclean.
  assert (Hs : trimStart s = rev (trimStart (rev (trimStart s))) ++ rev blanks).
  { rewrite <- rev_app_distr, <- Hsplit, rev_involutive. reflexivity. }
  destruct (rev (trimStart (rev (trimStart s)))) as [|c t] eqn:Ht.
  - intros c Hc; discriminate.
  - intros d [= <-]. apply Hclean. rewrite Hs. reflexivity.
Qed.

Lemma trim_endsClean (s : jsstring) : startsClean (rev (trim s)).
Proof.
  unfold trim, trimEnd. rewrite rev_involutive. apply trimStart_startsClean.
Qed.

Lemma trim_idempotent (s : jsstring) : trim (trim s) = trim s.
Proof.
  unfold trim at 1. rewrite (startsClean_trimStart _ (trim_startsClean s)).
  unfold trimEnd. rewrite (startsClean_trimStart _ (trim_endsClean s)).
  apply rev_involutive.
Qed.

Lemma last_rev_head {A} (l : list A) : last l = head (rev l).
Proof.
  induction l as [|a l IH] using rev_ind; [reflexivity|].
  rewrite last_snoc, rev_app_distr. reflexivity.
Qed.

(** X9. The Send button is disabled in exactly the states in which
    [handleSendMessage] would return without doing anything; and a key
    press in the text area sends exactly when it is Enter without Shift. *)
Theorem X9_send_button_mirrors_the_guard
    (env : option jsstring) (w : World) :
  (ChatView.sendDisabled (ui w) = true <-> step env w SendMessage = w)
  /\ (forall e : ChatView.KeyboardEvent,
        run (ChatView.onKeyDown env (ui w) e) w
        = if bool_decide (ChatView.key e = js "Enter")
             && negb (ChatView.shiftKey e)
          then step env w SendMessage
          else w).
Proof.
  assert (Hsame : ChatView.sendDisabled (ui w) = sendBlocked (ui w)).
  { unfold ChatView.sendDisabled, sendBlocked. apply orb_comm. }
  split.
  - rewrite Hsame. split.
    + intros Hblocked. unfold step, handleSendMessage. rewrite Hblocked.
      reflexivity.
    + intros Hstep. destruct (sendBlocked (ui w)) eqn:Hguard; [reflexivity|].
      exfalso.
      assert (Hlen : length (sent (step env w SendMessage))
                     = Datatypes.S (length (sent w))).
      { unfold step, handleSendMessage. rewrite Hguard.
        destruct (selectedImage (ui w)) as [[|c dataUrl]|]; simpl;
          rewrite length_app; simpl; lia. }
      rewrite Hstep in Hlen. lia.
  - intros e. unfold ChatView.onKeyDown.
    destruct (bool_decide (ChatView.key e = js "Enter")
              && negb (ChatView.shiftKey e)); reflexivity.
Qed.

(** X10. The user entry of a text-only turn that passes the guard is never
    blank and carries no white space at either end; trimming it again
    changes nothing; and the [query] posted to the server is that same
    text. *)
Theorem X10_user_entry_is_trimmed (env : option jsstring) (w : World) :
  sendBlocked (ui w) = false ->
  truthy_opt (selectedImage (ui w)) = false ->
  exists content,
    last (messages (ui (step env w SendMessage)))
    = Some (Message.mk user content None None None)
    /\ content <> js ""
    /\ trim content = content
    /\ (forall c, head content = Some c -> isWhiteSpace c = false)
    /\ (forall c, last content = Some c -> isWhiteSpace c = false)
    /\ last (sent (step env w SendMessage))
       = Some (Api.chatRequest env content).
Proof.
  intros Hguard Himage.
  destruct (send_text_started env w Hguard Himage) as (k & Hw1 & _).
  exists (trim (input (ui w))). rewrite Hw1. simpl.
  rewrite !last_snoc. repeat split.
  - unfold sendBlocked in Hguard. rewrite Himage in Hguard.
    intros Hblank. rewrite Hblank in Hguard. simpl in Hguard. discriminate.
  - apply trim_idempotent.
  - apply trim_startsClean.
  - intros c Hc. apply (trim_endsClean (input (ui w)) c).
    rewrite <- last_rev_head. exact Hc.
Qed.

(** Witness for X10: the question typed in [askedWorld]. *)
Lemma X10_witness :
  exists content,
    last (messages (ui (step None askedWorld SendMessage)))
    = Some (Message.mk user content None None None)
    /\ content <> js "".
Proof.
  destruct (X10_user_entry_is_trimmed None askedWorld eq_refl eq_refl)
    as (content & Hlast & Hne & _).
  exists content. split; assumption.
Defined.

(** ** The processing indicator *)

Lemma Calm_bind {A B} (t : Task State A) (f : A -> Task State B) :
  Calm t -> (forall a, Calm (f a)) -> Calm (bind t f).
Proof. induction 1; intros Hf; simpl; try constructor; auto. Qed.

Lemma Calm_try_catch {A} (t : Task State A) (h : JsError -> Task State A) :
  Calm t -> (forall e, Calm (h e)) -> Calm (try_catch t h).
Proof. induction 1; intros Hh; simpl; try constructor; auto. Qed.

Lemma Quiet_bind {A B} (t : Task State A) (f : A -> Task State B) :
  Quiet t -> (forall a, Quiet (f a)) -> Quiet (bind t f).
Proof. induction 1; intros Hf; simpl; try constructor; auto. Qed.

Lemma Quiet_try_catch {A} (t : Task State A) (h : JsError -> Task State A) :
  Quiet t -> (forall e, Quiet (h e)) -> Quiet (try_catch t h).
Proof. induction 1; intros Hh; simpl; try constructor; auto. Qed.

Lemma Lowers_finally (t : Task State unit) :
  Calm t -> Lowers (try_finally t (setIsProcessing false)).
Proof.
  induction 1 as [a|e|f k _ IH|kd req k Hkd _ IH]; simpl.
  - apply lowers_ret. reflexivity.
  - apply lowers_throw. reflexivity.
  - apply lowers_set. exact IH.
  - apply lowers_await; assumption.
Qed.

Lemma Calm_fetch kd req : kd <> KTranscript -> Calm (@fetch State kd req).
Proof. intros H. constructor; [exact H|]. intros [e|r]; constructor. Qed.

Lemma Calm_read {T} (r : Response T) : Calm (@read State T r).
Proof. unfold read; destruct (parsed r); constructor. Qed.

Lemma Calm_set (f : State -> State) : Calm (set f).
Proof. repeat constructor. Qed.

Ltac calm_step :=
  match goal with
  | |- Calm (mbind _ _) => unfold mbind, task_bind
  | |- Calm (mret _) => unfold mret, task_ret
  | |- Calm (bind _ _) => apply Calm_bind; [|intros ?]
  | |- Calm (try_catch _ _) => apply Calm_try_catch; [|intros ?]
  | |- Calm (Await _ _ _) => apply calm_await; [discriminate | intros ?]
  | |- Calm (fetch ?kd ?req) => exact (Calm_fetch kd req ltac:(discriminate))
  | |- Calm (read ?r) => exact (Calm_read r)
  | |- Calm (setMessages _) => apply Calm_set
  | |- Calm (set _) => apply Calm_set
  | |- Calm (if ?c then _ else _) => destruct c
  | |- Calm (match ?c with _ => _ end) => destruct c
  | |- Calm _ => solve [repeat constructor]
  end.

Ltac quiet_step :=
  match goal with
  | |- Quiet (mbind _ _) => unfold mbind, task_bind
  | |- Quiet (mret _) => unfold mret, task_ret
  | |- Quiet (bind _ _) => apply Quiet_bind; [|intros ?]
  | |- Quiet (try_catch _ _) => apply Quiet_try_catch; [|intros ?]
  | |- Quiet (fetch KTranscript ?req) =>
      apply quiet_await; intros [?|?]; constructor
  | |- Quiet (read ?r) => unfold read; destruct (parsed r); constructor
  | |- Quiet (if ?c then _ else _) => destruct c
  | |- Quiet (match ?c with _ => _ end) => destruct c
  | |- Quiet _ => solve [repeat (constructor; try (intros; reflexivity))]
  end.

Lemma Lowers_then_set (f : State -> State) (k : Task State unit) :
  Lowers k -> Lowers (set f;; k).
Proof. apply lowers_set. Qed.

Section Indicator.

Variable env : option jsstring.

Lemma Quiet_handleSendMessage_blocked st :
  sendBlocked st = true -> Quiet (handleSendMessage env st).
Proof. intros H. unfold handleSendMessage. rewrite H. constructor. Qed.

Lemma Lowers_handleSendMessage st :
  sendBlocked st = false -> Lowers (handleSendMessage env st).
Proof.
  intros H. unfold handleSendMessage. rewrite H.
  do 4 apply Lowers_then_set. apply Lowers_finally.
  unfold Api.uploadImage, Api.sendChatMessage. repeat calm_step.
Qed.

Lemma Lowers_handleValidation v c : Lowers (handleValidation env v c).
Proof.
  unfold handleValidation. apply Lowers_then_set. apply Lowers_finally.
  unfold Api.sendValidation. repeat calm_step.
Qed.

Lemma Quiet_toggleRecording st granted audioChunks :
  Quiet (toggleRecording env st granted audioChunks).
Proof.
  unfold toggleRecording, onstop, Api.transcribeAudio. repeat quiet_step.
Qed.

Lemma run_Quiet (t : Task State unit) (v : World) :
  Quiet t ->
  isProcessing (ui (run t v)) = isProcessing (ui v)
  /\ (inflight (run t v) = inflight v
      \/ exists s, inflight (run t v) = inflight v ++ [s]
                   /\ awaiting s = KTranscript
                   /\ forall o, Quiet (resume s o)).
Proof.
  intros H; revert v; induction H as [a|e|f k Hf _ IH|req k Hk _]; intros v.
  - split; [reflexivity | left; reflexivity].
  - split; [reflexivity | left; reflexivity].
  - destruct (IH {| ui := f (ui v); inflight := inflight v; sent := sent v |})
      as [Hflag Hfl].
    simpl in *. split; [rewrite Hflag; apply Hf | exact Hfl].
  - split; [reflexivity|]. right. eexists; split; [reflexivity|].
    split; [reflexivity | exact Hk].
Qed.

Lemma run_Lowers (t : Task State unit) (v : World) :
  Lowers t ->
  (isProcessing (ui (run t v)) = false /\ inflight (run t v) = inflight v)
  \/ exists s, inflight (run t v) = inflight v ++ [s]
               /\ awaiting s <> KTranscript
               /\ forall o, Lowers (resume s o).
Proof.
  intros H; revert v;
    induction H as [f a Hf|f e Hf|f k _ IH|kd req k Hkd Hk _]; intros v.
  - left. simpl. split; [apply Hf | reflexivity].
  - left. simpl. split; [apply Hf | reflexivity].
  - apply (IH {| ui := f (ui v); inflight := inflight v; sent := sent v |}).
  - right. eexists; split; [reflexivity|]. split; [exact Hkd | exact Hk].
Qed.

Lemma Exists_delete_other {A} (P : A -> Prop) (l : list A) (n : nat) (x : A) :
  Exists P l -> l !! n = Some x -> ~ P x -> Exists P (delete n l).
Proof.
  intros HE; revert n; induction HE as [y l Hy|y l Hl IH]; intros n Hn Hx.
  - destruct n as [|n]; simpl in *.
    + injection Hn as ->. contradiction.
    + left. exact Hy.
  - destruct n as [|n]; simpl in *.
    + exact Hl.
    + right. eapply IH; eassumption.
Qed.

(** Running a quiet task keeps the world attended. *)
Lemma Attended_run_Quiet (t : Task State unit) (v : World) :
  Quiet t -> Attended v -> Attended (run t v).
Proof.
  intros Ht [Hex Hall]. destruct (run_Quiet t v Ht) as [Hflag Hfl].
  unfold Attended. rewrite Hflag.
  destruct Hfl as [->|(s & -> & Hs & Hk)].
  - split; assumption.
  - split.
    + intros Hp. apply Exists_app. left. apply Hex, Hp.
    + apply Forall_app; split; [exact Hall|].
      constructor; [|constructor]. split; [congruence | intros _; exact Hk].
Qed.

(** Running a lowering task on a world whose pending handlers are well
    behaved leaves the world attended. *)
Lemma Attended_run_Lowers (t : Task State unit) (v : World) :
  Lowers t ->
  Forall (fun s =>
    (awaiting s <> KTranscript -> forall o, Lowers (resume s o))
    /\ (awaiting s = KTranscript -> forall o, Quiet (resume s o)))
    (inflight v) ->
  Attended (run t v).
Proof.
  intros Ht Hall. unfold Attended.
  destruct (run_Lowers t v Ht) as [[Hflag ->]|(s & -> & Hs & Hk)].
  - split; [rewrite Hflag; discriminate | exact Hall].
  - split.
    + intros _. apply Exists_app. right. left. exact Hs.
    + apply Forall_app; split; [exact Hall|].
      constructor; [|constructor]. split; [intros _; exact Hk | congruence].
Qed.

Lemma rendersControls_asks (message : Message.t) :
  MessageView.rendersControls message (onValidationFor env message)
  = MessageView.asksValidation message.
Proof.
  unfold MessageView.rendersControls, onValidationFor.
  destruct (MessageView.asksValidation message); reflexivity.
Qed.

Lemma step_Attended (w : World) (e : Event) :
  Attended w -> Attended (step env w e).
Proof.
  intros Hw. destruct e; unfold step.
  - destruct (sendBlocked (ui w)) eqn:Hguard.
    + apply Attended_run_Quiet;
        [apply Quiet_handleSendMessage_blocked, Hguard | exact Hw].
    + apply Attended_run_Lowers;
        [apply Lowers_handleSendMessage, Hguard | apply Hw].
  - apply Attended_run_Quiet; [repeat quiet_step | exact Hw].
  - apply Attended_run_Quiet; [|exact Hw].
    unfold handleImageUpload. repeat quiet_step.
  - apply Attended_run_Quiet; [repeat quiet_step | exact Hw].
  - destruct (messages (ui w) !! index) as [message|]; [|exact Hw].
    rewrite rendersControls_asks.
    destruct (MessageView.asksValidation message) eqn:Hasks; [|exact Hw].
    apply Attended_run_Lowers; [|apply Hw].
    unfold MessageView.onClick, MessageView.handleValidation, onValidationFor.
    rewrite Hasks. apply Lowers_handleValidation.
  - apply Attended_run_Quiet; [apply Quiet_toggleRecording | exact Hw].
  - apply Attended_run_Quiet; [repeat quiet_step | exact Hw].
  - destruct (inflight w !! n) as [s|] eqn:Hn; [|exact Hw].
    destruct (settle s kd o) as [t|] eqn:Ht; [|exact Hw].
    destruct Hw as [Hex Hall].
    pose proof (proj1 (Forall_lookup _ _) Hall n s Hn) as [Hlow Hquiet].
    assert (Hkd : kd = awaiting s).
    { unfold settle in Ht.
      destruct (Kind_eq_dec kd (awaiting s)); [assumption | discriminate]. }
    assert (Hres : forall P : Task State unit -> Prop,
              (forall o', P (resume s o')) -> P t).
    { intros P HP. destruct s as [kd' req k]; unfold settle in Ht; simpl in *.
      destruct (Kind_eq_dec kd kd') as [E|]; [|discriminate].
      destruct E. simpl in Ht. injection Ht as <-. apply HP. }
    destruct (Kind_eq_dec (awaiting s) KTranscript) as [HT|HT].
    + apply Attended_run_Quiet; [apply Hres, Hquiet, HT|].
      split; simpl.
      * intros Hp. eapply Exists_delete_other; [apply Hex, Hp | exact Hn|].
        intros Hneq. apply Hneq, HT.
      * apply Forall_delete, Hall.
    + apply Attended_run_Lowers; [apply Hres, Hlow, HT|].
      simpl. apply Forall_delete, Hall.
Qed.

Lemma steps_Attended (es : list Event) (w : World) :
  Attended w -> Attended (steps env w es).
Proof.
  revert w; induction es as [|e es IH]; intros w Hw; simpl; [exact Hw|].
  apply IH, step_Attended, Hw.
Qed.

(** X11. In every state the component can reach, whenever [isProcessing]
    is set, a chat, upload, data URL or validation request is still
    pending, and the handler waiting for it lowers the flag when it ends:
    the processing indicator cannot stay on with nothing left to wait
    for. *)
Theorem X11_indicator_has_a_pending_request (es : list Event) :
  let w := steps env start es in
  isProcessing (ui w) = true ->
  exists s, s ∈ inflight w
            /\ awaiting s <> KTranscript
            /\ forall o, Lowers (resume s o).
Proof.
  intros w Hp.
  assert (Hw : Attended w).
  { apply steps_Attended. split; [discriminate | constructor]. }
  destruct Hw as [Hex Hall].
  apply Exists_exists in Hex; [|exact Hp].
  destruct Hex as (s & Hin & Hs). exists s. split; [exact Hin|].
  split; [exact Hs|].
  apply (proj1 (Forall_forall _ _) Hall s Hin), Hs.
Qed.

End Indicator.

(** Witness for X11: a question was sent and its answer is awaited. *)
Lemma X11_witness :
  exists s,
    s ∈ inflight (steps None start
                    [ChangeInput (js "what is a glioma?"); SendMessage])
    /\ awaiting s <> KTranscript.
Proof.
  destruct (X11_indicator_has_a_pending_request None
              [ChangeInput (js "what is a glioma?"); SendMessage] eq_refl)
    as (s & Hin & Hs & _).
  exists s. split; assumption.
Defined.

(** ** [stripMarkdown] *)

Import Markdown.

Lemma replaceAll_length matchAt :
  Shrinking matchAt ->
  forall text skip,
    (length (replaceAll matchAt skip text) <= length text - skip)%nat.
Proof.
  intros Hm text; induction text as [|c rest IH]; intros skip; simpl; [lia|].
  destruct skip as [|skip'].
  - destruct (matchAt (c :: rest)) as [[replacement span]|] eqn:Hmatch.
    + destruct (Hm _ _ _ Hmatch) as [[H1 H2] H3]. simpl in H2.
      rewrite length_app. specialize (IH (Nat.pred span)). lia.
    + simpl. specialize (IH 0%nat). lia.
  - apply IH.
Qed.

Lemma replace_length matchAt text :
  Shrinking matchAt -> (length (replace matchAt text) <= length text)%nat.
Proof.
  intros Hm. unfold replace.
  pose proof (replaceAll_length matchAt Hm text 0). lia.
Qed.

Lemma startsWith_length (s p : jsstring) :
  startsWith s p = true -> (length p <= length s)%nat.
Proof.
  revert s; induction p as [|a p IH]; intros s H; simpl; [lia|].
  destruct s as [|b s]; simpl in H; [discriminate|].
  apply andb_true_iff in H as [_ H]. apply IH in H. simpl. lia.
Qed.

Lemma lazyUntil_length closing text inner :
  lazyUntil closing text = Some inner ->
  (length inner + length closing <= length text)%nat.
Proof.
  revert inner; induction text as [|c rest IH]; intros inner; simpl.
  - destruct (startsWith [] closing) eqn:Hs; [|discriminate].
    intros [= <-]. apply startsWith_length in Hs. simpl in *. lia.
  - destruct (startsWith (c :: rest) closing) eqn:Hs.
    + intros [= <-]. apply startsWith_length in Hs. simpl in *. lia.
    + destruct (isLineTerminator c); [discriminate|].
      destruct (lazyUntil closing rest) as [inner'|]; [|discriminate].
      intros [= <-]. specialize (IH inner' eq_refl). simpl. lia.
Qed.

Lemma lazyAnyUntil_length closing text inner :
  lazyAnyUntil closing text = Some inner ->
  (length inner + length closing <= length text)%nat.
Proof.
  revert inner; induction text as [|c rest IH]; intros inner; simpl.
  - destruct (startsWith [] closing) eqn:Hs; [|discriminate].
    intros [= <-]. apply startsWith_length in Hs. simpl in *. lia.
  - destruct (startsWith (c :: rest) closing) eqn:Hs.
    + intros [= <-]. apply startsWith_length in Hs. simpl in *. lia.
    + destruct (lazyAnyUntil closing rest) as [inner'|]; [|discriminate].
      intros [= <-]. specialize (IH inner' eq_refl). simpl. lia.
Qed.

Lemma delimited_Shrinking opening closing :
  (1 <= length opening)%nat -> Shrinking (delimited opening closing).
Proof.
  intros Hopen text replacement span. unfold delimited.
  destruct (startsWith text opening) eqn:Hs; [|discriminate].
  destruct (lazyUntil closing (drop (length opening) text)) as [inner|] eqn:Hl;
    [|discriminate].
  intros [= <- <-]. apply startsWith_length in Hs.
  apply lazyUntil_length in Hl. rewrite length_drop in Hl. lia.
Qed.

Lemma link_Shrinking : Shrinking link.
Proof.
  intros text replacement span. unfold link.
  destruct (startsWith text (js "[")) eqn:Hs; [|discriminate].
  destruct (lazyUntil (js "](") (drop 1 text)) as [label|] eqn:Hl;
    [|discriminate].
  destruct (lazyUntil (js ")") (drop (1 + length label + 2) text))
    as [target|] eqn:Ht; [|discriminate].
  intros [= <- <-]. apply startsWith_length in Hs.
  apply lazyUntil_length in Hl, Ht. rewrite length_drop in Hl, Ht.
  change (length (js "](")) with 2%nat in Hl.
  change (length (js ")")) with 1%nat in Ht.
  change (length (js "[")) with 1%nat in Hs. lia.
Qed.

Lemma hashes_length limit text : (hashes limit text <= length text)%nat.
Proof.
  revert text; induction limit as [|limit IH]; intros [|c rest]; simpl; try lia.
  destruct (c =? 35); [specialize (IH rest)|]; lia.
Qed.

Lemma lineRest_length text : (length (lineRest text) <= length text)%nat.
Proof.
  induction text as [|c rest IH]; simpl; [lia|].
  destruct (isLineTerminator c); simpl; lia.
Qed.

Lemma heading_Shrinking : Shrinking heading.
Proof.
  intros text replacement span. unfold heading.
  pose proof (hashes_length 6 text) as Hh.
  destruct (hashes 6 text) as [|marks'] eqn:Hmarks; [discriminate|].
  set (marks := Datatypes.S marks') in *.
  set (after := drop marks text).
  assert (Hafter : length after = (length text - marks)%nat)
    by apply length_drop.
  set (blank := match after with
                | c :: _ => if isWhiteSpace c then 1%nat else 0%nat
                | [] => 0%nat
                end).
  assert (Hblank : (blank <= length after)%nat).
  { subst blank. destruct after as [|c t]; simpl; [lia|].
    destruct (isWhiteSpace c); lia. }
  pose proof (lineRest_length (drop blank after)) as Ht.
  rewrite length_drop in Ht.
  intros [= <- <-]. subst marks. lia.
Qed.

Lemma throughNewline_length text info :
  throughNewline text = Some info -> (1 <= info <= length text)%nat.
Proof.
  revert info; induction text as [|c rest IH]; intros info; simpl;
    [discriminate|].
  destruct (c =? 10); [intros [= <-]; lia|].
  destruct (isLineTerminator c); [discriminate|].
  destruct (throughNewline rest) as [info'|]; [|discriminate].
  intros [= <-]. specialize (IH info' eq_refl). lia.
Qed.

Lemma codeBlock_Shrinking : Shrinking codeBlock.
Proof.
  intros text replacement span. unfold codeBlock.
  destruct (startsWith text (js "```")) eqn:Hs; [|discriminate].
  destruct (throughNewline (drop 3 text)) as [info|] eqn:Hi; [|discriminate].
  destruct (lazyAnyUntil (js "```") (drop (3 + info) text)) as [code|] eqn:Hc;
    [|discriminate].
  intros [= <- <-]. apply startsWith_length in Hs.
  apply throughNewline_length in Hi. rewrite length_drop in Hi.
  apply lazyAnyUntil_length in Hc. rewrite length_drop in Hc.
  change (length (js "```")) with 3%nat in *. lia.
Qed.

Lemma newlines_length text : (newlines text <= length text)%nat.
Proof.
  induction text as [|c rest IH]; simpl; [lia|]. destruct (c =? 10); lia.
Qed.

Lemma blankLines_Shrinking : Shrinking blankLines.
Proof.
  intros text replacement span. unfold blankLines.
  pose proof (newlines_length text) as Hn.
  destruct (newlines text) as [|[|run]]; try discriminate.
  intros [= <- <-]. simpl. lia.
Qed.

Lemma blanks_length text : (blanks text <= length text)%nat.
Proof.
  induction text as [|c rest IH]; simpl; [lia|].
  destruct (isWhiteSpace c); lia.
Qed.

Lemma blanksBefore_Shrinking mark : Shrinking (blanksBefore mark).
Proof.
  intros text replacement span. unfold blanksBefore.
  destruct (blanks text) as [|run'] eqn:Hrun; [discriminate|].
  destruct (drop (Datatypes.S run') text) as [|c t] eqn:Hd; [discriminate|].
  destruct (c =? mark); [|discriminate].
  intros [= <- <-].
  assert (Hlen : length (drop (Datatypes.S run') text) = Datatypes.S (length t))
    by (rewrite Hd; reflexivity).
  rewrite length_drop in Hlen. simpl. lia.
Qed.

Lemma blanksAfter_Shrinking mark : Shrinking (blanksAfter mark).
Proof.
  intros text replacement span. unfold blanksAfter.
  destruct text as [|c rest]; [discriminate|].
  destruct (c =? mark); [|discriminate].
  pose proof (blanks_length rest) as Hb.
  destruct (blanks rest) as [|run']; [discriminate|].
  intros [= <- <-]. simpl. lia.
Qed.

Lemma trimStart_length (s : jsstring) : (length (trimStart s) <= length s)%nat.
Proof.
  destruct (trimStart_suffix s) as [blanks Hs].
  rewrite Hs at 2. rewrite length_app. lia.
Qed.

Lemma trim_length (s : jsstring) : (length (trim s) <= length s)%nat.
Proof.
  unfold trim, trimEnd. rewrite length_rev.
  pose proof (trimStart_length (rev (trimStart s))) as H1.
  rewrite length_rev in H1.
  pose proof (trimStart_length s). lia.
Qed.

(** X12. [stripMarkdown] never makes a text longer: each of its seventeen
    replacements puts in place of a match something no longer than the
    match, and [trim] only removes. *)
Theorem X12_stripMarkdown_never_lengthens (text : jsstring) :
  (length (stripMarkdown text) <= length text)%nat.
Proof.
  unfold stripMarkdown, spacedPunctuation, withoutMarkup.
  repeat match goal with
  | |- (length (replace ?m ?t) <= _)%nat =>
      transitivity (length t);
      [apply replace_length;
       first [ apply blanksBefore_Shrinking | apply blanksAfter_Shrinking
             | apply blankLines_Shrinking | apply codeBlock_Shrinking
             | apply heading_Shrinking | apply link_Shrinking
             | apply delimited_Shrinking; vm_compute; lia ]
      |]
  | |- (length (trim ?t) <= _)%nat =>
      transitivity (length t); [apply trim_length|]
  end.
  reflexivity.
Qed.

Lemma plainProse_tail c rest :
  plainProse (c :: rest) = true -> plainProse rest = true.
Proof. simpl. intros H. apply andb_true_iff in H as [_ H]. exact H. Qed.

Lemma plainProse_app_l (a b : jsstring) :
  plainProse (a ++ b) = true -> plainProse a = true.
Proof.
  induction a as [|c a IH]; [reflexivity|]. simpl.
  intros H. apply andb_true_iff in H as [H Hrest].
  apply andb_true_iff in H as [Hm Hws].
  rewrite Hm, (IH Hrest), andb_true_r. simpl.
  destruct (isWhiteSpace c); [|reflexivity].
  apply andb_true_iff in Hws as [-> Hnext]. simpl.
  destruct a as [|d a]; [reflexivity|exact Hnext].
Qed.

Lemma trimEnd_prefix (s : jsstring) : exists blanks, s = trimEnd s ++ blanks.
Proof.
  unfold trimEnd. destruct (trimStart_suffix (rev s)) as [blanks Hs].
  exists (rev blanks). rewrite <- rev_app_distr, <- Hs, rev_involutive.
  reflexivity.
Qed.

Lemma plainProse_trimStart (s : jsstring) :
  plainProse s = true -> plainProse (trimStart s) = true.
Proof.
  induction s as [|c s IH]; [reflexivity|]. intros H. simpl.
  destruct (isWhiteSpace c); [|exact H].
  apply IH. exact (plainProse_tail _ _ H).
Qed.

Lemma plainProse_trim (s : jsstring) :
  plainProse s = true -> plainProse (trim s) = true.
Proof.
  intros H. apply plainProse_trimStart in H. unfold trim.
  destruct (trimEnd_prefix (trimStart s)) as [blanks Hs].
  rewrite Hs in H. exact (plainProse_app_l _ _ H).
Qed.

Lemma replaceAll_keeps matchAt :
  (forall text, plainProse text = true -> Keeps matchAt text) ->
  forall text skip,
    plainProse text = true -> replaceAll matchAt skip text = drop skip text.
Proof.
  intros Hk text; induction text as [|c rest IH]; intros skip Hp;
    [destruct skip; reflexivity|].
  pose proof (plainProse_tail _ _ Hp) as Hrest.
  destruct skip as [|skip']; simpl; [|apply IH; exact Hrest].
  specialize (Hk _ Hp). unfold Keeps in Hk.
  destruct (matchAt (c :: rest)) as [[replacement span]|].
  - destruct Hk as [Hspan ->]. destruct span as [|span']; [lia|].
    simpl. f_equal. rewrite (IH _ Hrest). apply take_drop.
  - f_equal. rewrite (IH _ Hrest). reflexivity.
Qed.

Lemma replace_keeps matchAt text :
  (forall text, plainProse text = true -> Keeps matchAt text) ->
  plainProse text = true -> replace matchAt text = text.
Proof.
  intros Hk Hp. unfold replace. rewrite (replaceAll_keeps _ Hk _ _ Hp).
  reflexivity.
Qed.

Lemma plainProse_head c rest :
  plainProse (c :: rest) = true ->
  isMarkup c = false
  /\ (isWhiteSpace c = true ->
      c = 32 /\ blanks rest = 0%nat
      /\ forall d, head rest = Some d -> isSpacedMark d = false).
Proof.
  simpl. intros H. apply andb_true_iff in H as [H _].
  apply andb_true_iff in H as [Hm Hws].
  split; [destruct (isMarkup c); [discriminate|reflexivity]|].
  intros Hc. rewrite Hc in Hws. apply andb_true_iff in Hws as [H32 Hnext].
  apply N.eqb_eq in H32. split; [exact H32|].
  destruct rest as [|d rest']; [split; [reflexivity|intros d [=]]|].
  apply andb_true_iff in Hnext as [Hd Hmark]. simpl.
  destruct (isWhiteSpace d); [discriminate|]. split; [reflexivity|].
  intros d' [= <-]. destruct (isSpacedMark d); [discriminate|reflexivity].
Qed.

Lemma plainProse_startsWith text a opening :
  isMarkup a = true -> plainProse text = true ->
  startsWith text (a :: opening) = false.
Proof.
  intros Ha Hp. destruct text as [|c rest]; [reflexivity|]. simpl.
  destruct (plainProse_head _ _ Hp) as [Hc _].
  destruct (a =? c) eqn:E; [|reflexivity].
  apply N.eqb_eq in E. congruence.
Qed.

Lemma Keeps_delimited a opening closing :
  isMarkup a = true ->
  forall text, plainProse text = true ->
  Keeps (delimited (a :: opening) closing) text.
Proof.
  intros Ha text Hp. unfold Keeps, delimited.
  rewrite (plainProse_startsWith _ _ _ Ha Hp). exact I.
Qed.

Lemma Keeps_link text : plainProse text = true -> Keeps link text.
Proof.
  intros Hp. unfold Keeps, link.
  change (js "[") with [91].
  rewrite (plainProse_startsWith _ 91 [] eq_refl Hp). exact I.
Qed.

Lemma Keeps_codeBlock text : plainProse text = true -> Keeps codeBlock text.
Proof.
  intros Hp. unfold Keeps, codeBlock.
  change (js "```") with [96; 96; 96].
  rewrite (plainProse_startsWith _ 96 [96; 96] eq_refl Hp). exact I.
Qed.

Lemma Keeps_heading text : plainProse text = true -> Keeps heading text.
Proof.
  intros Hp. unfold Keeps, heading.
  destruct text as [|c rest]; [exact I|].
  destruct (plainProse_head _ _ Hp) as [Hc _]. simpl.
  destruct (c =? 35) eqn:E; [|exact I].
  apply N.eqb_eq in E. subst c. discriminate.
Qed.

Lemma Keeps_blankLines text : plainProse text = true -> Keeps blankLines text.
Proof.
  intros Hp. unfold Keeps, blankLines.
  destruct text as [|c rest]; [exact I|].
  destruct (plainProse_head _ _ Hp) as [_ Hws]. simpl.
  destruct (c =? 10) eqn:E; [|exact I].
  apply N.eqb_eq in E. subst c. destruct (Hws eq_refl) as [? _]. discriminate.
Qed.

Lemma isSpacedMark_neq mark d :
  isSpacedMark mark = true -> isSpacedMark d = false -> (d =? mark) = false.
Proof.
  intros Hm Hd. destruct (d =? mark) eqn:E; [|reflexivity].
  apply N.eqb_eq in E. congruence.
Qed.

Lemma Keeps_blanksBefore mark :
  isSpacedMark mark = true ->
  forall text, plainProse text = true -> Keeps (blanksBefore mark) text.
Proof.
  intros Hm text Hp. unfold Keeps, blanksBefore.
  destruct text as [|c rest]; [exact I|].
  destruct (plainProse_head _ _ Hp) as [_ Hws]. simpl.
  destruct (isWhiteSpace c); [|exact I].
  destruct (Hws eq_refl) as (_ & -> & Hnext). simpl.
  destruct rest as [|d rest']; [exact I|]. rewrite drop_0.
  rewrite (isSpacedMark_neq _ _ Hm (Hnext d eq_refl)). exact I.
Qed.

Lemma Keeps_blanksAfter mark :
  forall text, plainProse text = true -> Keeps (blanksAfter mark) text.
Proof.
  intros text Hp. unfold Keeps, blanksAfter.
  destruct text as [|c rest]; [exact I|].
  destruct (c =? mark) eqn:E; [|exact I]. apply N.eqb_eq in E. subst c.
  destruct rest as [|d rest']; [exact I|]. simpl.
  destruct (isWhiteSpace d) eqn:Hd; [|exact I].
  destruct (plainProse_head _ _ (plainProse_tail _ _ Hp)) as [_ Hws].
  destruct (Hws Hd) as (-> & -> & _). split; [lia|reflexivity].
Qed.

(** X13. Plain prose is only trimmed: on a text without "*", "[", "#" and
    backquote, whose white space is single spaces with none of them before
    a comma, period, question mark, exclamation mark or semicolon,
    [stripMarkdown] returns [text.trim()]. *)
Theorem X13_plain_prose_is_only_trimmed (text : jsstring) :
  plainProse text = true -> stripMarkdown text = trim text.
Proof.
  intros Hp. unfold stripMarkdown, withoutMarkup.
  rewrite (replace_keeps bold text
             (Keeps_delimited 42 [42] _ eq_refl) Hp).
  rewrite (replace_keeps italic text
             (Keeps_delimited 42 [] _ eq_refl) Hp).
  rewrite (replace_keeps link text Keeps_link Hp).
  rewrite (replace_keeps heading text Keeps_heading Hp).
  rewrite (replace_keeps codeBlock text Keeps_codeBlock Hp).
  rewrite (replace_keeps inlineCode text
             (Keeps_delimited 96 [] _ eq_refl) Hp).
  rewrite (replace_keeps blankLines text Keeps_blankLines Hp).
  apply plainProse_trim in Hp. unfold spacedPunctuation.
  rewrite (replace_keeps _ _ (Keeps_blanksBefore comma eq_refl) Hp).
  rewrite (replace_keeps _ _ (Keeps_blanksBefore period eq_refl) Hp).
  rewrite (replace_keeps _ _ (Keeps_blanksAfter comma) Hp).
  rewrite (replace_keeps _ _ (Keeps_blanksAfter period) Hp).
  rewrite (replace_keeps _ _ (Keeps_blanksBefore question eq_refl) Hp).
  rewrite (replace_keeps _ _ (Keeps_blanksAfter question) Hp).
  rewrite (replace_keeps _ _ (Keeps_blanksBefore exclamation eq_refl) Hp).
  rewrite (replace_keeps _ _ (Keeps_blanksAfter exclamation) Hp).
  rewrite (replace_keeps _ _ (Keeps_blanksBefore semicolon eq_refl) Hp).
  rewrite (replace_keeps _ _ (Keeps_blanksAfter semicolon) Hp).
  reflexivity.
Qed.

(** Witness for X13: a sentence with punctuation and spaces around it. *)
Lemma X13_witness :
  stripMarkdown (js " No tumour was found. Is that final? ")
  = trim (js " No tumour was found. Is that final? ").
Proof.
  exact (X13_plain_prose_is_only_trimmed
           (js " No tumour was found. Is that final? ") eq_refl).
Defined.

(** ** The audio controls *)

Import Player.

Lemma cannotBeSpoken_length language :
  (2 <= length (trim (cannotBeSpoken language)))%nat
  /\ lonePunctuation (trim (cannotBeSpoken language)) = false.
Proof.
  unfold cannotBeSpoken.
  destruct (bool_decide (language = js "vi-VN")); vm_compute; split;
    first [reflexivity | lia | (intros H; discriminate H)].
Qed.

(** X14. A click on the speaker button, when nothing is being generated
    or played, raises [isGenerating] and posts one request to
    <API base>/api/generate-speech whose JSON body has exactly the
    properties [text] and [language].  The text is the message without
    markdown, or the fixed apology; after trimming it always has at least
    two code units, so the service is never asked to speak an empty text
    or a lone punctuation mark. *)
Theorem X14_player_requests_speech
    (NEXT_PUBLIC_API_URL : option jsstring) (content audioUrl : jsstring)
    (st : Player.State) :
  isGenerating st || isPlaying st = false ->
  (2 <= length (trim (spokenText content (language st))))%nat
  /\ lonePunctuation (trim (spokenText content (language st))) = false
  /\ exists k,
       upToAwait (handlePlayAudio NEXT_PUBLIC_API_URL content audioUrl st) st
       = (withGenerating true st,
          Some {| request :=
                    {| url := Api.API_BASE_URL NEXT_PUBLIC_API_URL
                                ++ js "/api/generate-speech";
                       method := POST;
                       headers := [(js "Content-Type", js "application/json")];
                       body := Some (JsonBody (JObject
                                 [(js "text",
                                   JString (spokenText content (language st)));
                                  (js "language", JString (language st))]));
                       credentials := None |};
                  resume := k |}).
Proof.
  intros Hfree. repeat split.
  - unfold spokenText.
    destruct (length (trim (stripMarkdown content)) <? 2)%nat eqn:Hshort;
      cbn [orb]; [apply cannotBeSpoken_length|].
    destruct (lonePunctuation (trim (stripMarkdown content)));
      [apply cannotBeSpoken_length|].
    apply Nat.ltb_ge in Hshort. exact Hshort.
  - unfold spokenText.
    destruct (length (trim (stripMarkdown content)) <? 2)%nat eqn:Hshort;
      cbn [orb]; [apply cannotBeSpoken_length|].
    destruct (lonePunctuation (trim (stripMarkdown content))) eqn:Hlone;
      [apply cannotBeSpoken_length|exact Hlone].
  - unfold handlePlayAudio. rewrite Hfree. eexists. reflexivity.
Qed.

(** Witness for X14: the greeting, read aloud from the initial state. *)
Lemma X14_witness :
  (2 <= length (trim (spokenText (js "**Hello**, how can I help?")
                        (language Player.initial))))%nat.
Proof.
  exact (proj1 (X14_player_requests_speech None
                  (js "**Hello**, how can I help?") (js "blob:1")
                  Player.initial eq_refl)).
Defined.

(** X15. When the speech request settles, [isGenerating] is lowered
    whatever the outcome.  If the audio arrived and has at least 100
    bytes, it becomes the source of the audio element, the playback rate
    is set to 1.2 and [play()] is called, with no alert.  Otherwise (the
    request failed, the body could not be read, or the audio is shorter
    than 100 bytes) the element is left alone and one alert is shown, in
    the language the click was made with.  [isPlaying] is not changed by
    the handler itself. *)
Theorem X15_player_outcome
    (NEXT_PUBLIC_API_URL : option jsstring) (content audioUrl : jsstring)
    (st : Player.State) :
  isGenerating st || isPlaying st = false ->
  exists r k,
    upToAwait (handlePlayAudio NEXT_PUBLIC_API_URL content audioUrl st) st
    = (withGenerating true st, Some {| request := r; resume := k |})
    /\ forall (o : Outcome Blob) (now : Player.State),
         upToAwait (k o) now
         = (match delivered o with
            | Some audio =>
                if (length (blob_bytes audio) <? 100)%nat
                then refused (language st) now
                else started audioUrl now
            | None => refused (language st) now
            end, None).
Proof.
  intros Hfree. unfold handlePlayAudio. rewrite Hfree.
  eexists _, _. split; [reflexivity|].
  intros [e|[[] code body [[bytes type]|]]] now;
    [reflexivity| |reflexivity..].
  cbn -[js Nat.ltb unableToSpeak].
  destruct (length bytes <? 100)%nat; reflexivity.
Qed.

(** Witness for X15, from the initial state. *)
Lemma X15_witness :
  exists r k,
    upToAwait (handlePlayAudio None (js "Hello there") (js "blob:1")
                 Player.initial) Player.initial
    = (withGenerating true Player.initial,
       Some {| request := r; resume := k |})
    /\ forall (o : Outcome Blob) (now : Player.State),
         upToAwait (k o) now
         = (match delivered o with
            | Some audio =>
                if (length (blob_bytes audio) <? 100)%nat
                then refused (language Player.initial) now
                else started (js "blob:1") now
            | None => refused (language Player.initial) now
            end, None).
Proof.
  exact (X15_player_outcome None (js "Hello there") (js "blob:1")
           Player.initial eq_refl).
Defined.

(** X16. The language button switches between exactly two languages:
    after [n] clicks from the initial state the language is "vi-VN" for
    even [n] and "en-US" for odd [n]; a click changes nothing but the
    language. *)
Theorem X16_language_alternates (n : nat) (st : Player.State) :
  language (Nat.iter n toggled Player.initial)
  = (if Nat.even n then js "vi-VN" else js "en-US")
  /\ isPlaying (toggled st) = isPlaying st
  /\ isGenerating (toggled st) = isGenerating st
  /\ validationComments (toggled st) = validationComments st
  /\ src (toggled st) = src st
  /\ playbackRate (toggled st) = playbackRate st
  /\ calls (toggled st) = calls st.
Proof.
  split; [|repeat split].
  assert (Hstep : forall m,
            language (Nat.iter m toggled Player.initial)
            = (if Nat.even m then js "vi-VN" else js "en-US")
            /\ language (Nat.iter (Datatypes.S m) toggled Player.initial)
               = (if Nat.even m then js "en-US" else js "vi-VN")).
  { induction m as [|m [IH1 IH2]]; [split; reflexivity|].
    split.
    - rewrite IH2. rewrite Nat.even_succ, <- Nat.negb_even.
      destruct (Nat.even m); reflexivity.
    - change (Nat.iter (Datatypes.S (Datatypes.S m)) toggled Player.initial)
        with (toggled (Nat.iter (Datatypes.S m) toggled Player.initial)).
      unfold toggled at 1. cbn [toggleLanguage setLanguage set upToAwait fst language].
      rewrite IH2. rewrite Nat.even_succ, <- Nat.negb_even.
      destruct (Nat.even m); reflexivity. }
  apply Hstep.
Qed.
